(** * process_csv: column templates, extraction functions, rate limiter and
    row loop of the GATE Cloud CSV processor

    A shallow embedding of [src/process-csv/process_csv.py].

    Conventions of the embedding.
    - A Python [str] is a [string]; each character stands for the code point
      of the same number (0..255).
    - A Python [int] is a [Z]; a Python [float] is a primitive binary64
      [float], so rounding, infinities and NaN are those of the interpreter.
    - A call that may raise returns a [result]; the exception classes that
      the program can meet are the constructors of [exn].
    - Decoded JSON is the inductive [json]; the operations the program
      applies to it ([in], subscription, [len], iteration, truth value) are
      defined on every constructor, as the interpreter does at run time.
    - The HTTP session and the clock are the environment: the row loop
      consumes a list of [attempt]s, one per [session.post] call. *)

From Stdlib Require Import ZArith Floats String Ascii List DecimalString Lia Bool.
From stdpp Require Import base option list strings gmap.

Local Open Scope string_scope.
Local Open Scope Z_scope.

Set Warnings "-register-all,-inexact-float".

(** ** The pieces of the Python runtime that the program uses *)

Module Py.

Inductive exn : Type :=
| KeyError
| ValueError
| TypeError
| IndexError
| AttributeError
| ZeroDivisionError
| OverflowError
| UnboundLocalError
| StopIteration.

Inductive result (A : Type) : Type :=
| Ok (a : A)
| Raise (e : exn).
Arguments Ok {A} a.
Arguments Raise {A} e.

#[global] Instance result_ret : MRet result := fun _ a => Ok a.
#[global] Instance result_bind : MBind result := fun _ _ f m =>
  match m with
  | Ok a => f a
  | Raise e => Raise e
  end.
#[global] Instance result_fmap : FMap result := fun _ _ f m =>
  match m with
  | Ok a => Ok (f a)
  | Raise e => Raise e
  end.

(** [[f(x) for x in xs]]: left to right, the first exception wins. *)
Fixpoint traverse {A B : Type} (f : A -> result B) (xs : list A) : result (list B) :=
  match xs with
  | [] => Ok []
  | x :: xs' => y ← f x; ys ← traverse f xs'; Ok (y :: ys)
  end.

Definition code (c : ascii) : Z := Z.of_N (N_of_ascii c).

Definition in_range (lo hi : Z) (c : ascii) : bool :=
  (lo <=? code c) && (code c <=? hi).

(** [str.isspace] on one character, which is also the class [\s] of [re]. *)
Definition is_space (c : ascii) : bool :=
  in_range 9 13 c || in_range 28 32 c || (code c =? 133) || (code c =? 160).

Definition is_digit (c : ascii) : bool := in_range 48 57 c.

(** The class [\w] of [re] on a [str] pattern: alphanumeric or underscore. *)
Definition is_word (c : ascii) : bool :=
  is_digit c || in_range 65 90 c || (code c =? 95) || in_range 97 122 c
  || (code c =? 170) || in_range 178 179 c || (code c =? 181)
  || in_range 185 186 c || in_range 188 190 c
  || in_range 192 214 c || in_range 216 246 c || in_range 248 255 c.

Fixpoint drop_while (p : ascii -> bool) (s : string) : string :=
  match s with
  | String c s' => if p c then drop_while p s' else s
  | EmptyString => EmptyString
  end.

Fixpoint take_while (p : ascii -> bool) (s : string) : string :=
  match s with
  | String c s' => if p c then String c (take_while p s') else EmptyString
  | EmptyString => EmptyString
  end.

Fixpoint rev_string_onto (s acc : string) : string :=
  match s with
  | String c s' => rev_string_onto s' (String c acc)
  | EmptyString => acc
  end.

Definition rev_string (s : string) : string := rev_string_onto s EmptyString.

Definition rstrip_by (p : ascii -> bool) (s : string) : string :=
  rev_string (drop_while p (rev_string s)).

(** [s.strip()] *)
Definition strip (s : string) : string := rstrip_by is_space (drop_while is_space s).

Fixpoint drop_string (n : nat) (s : string) : string :=
  match n, s with
  | S n', String _ s' => drop_string n' s'
  | _, _ => s
  end.

Fixpoint all_chars (p : ascii -> bool) (s : string) : bool :=
  match s with
  | String c s' => p c && all_chars p s'
  | EmptyString => true
  end.

(** [s.startswith(p)] *)
Fixpoint starts_with (p s : string) : bool :=
  match p with
  | EmptyString => true
  | String a p' =>
      match s with
      | String b s' => Ascii.eqb a b && starts_with p' s'
      | EmptyString => false
      end
  end.

(** [needle in hay] for two strings. *)
Fixpoint is_substring (needle hay : string) : bool :=
  starts_with needle hay ||
  match hay with
  | String _ hay' => is_substring needle hay'
  | EmptyString => false
  end.

(** [sep.join(parts)] *)
Definition join (sep : string) (parts : list string) : string := String.concat sep parts.

(** [str(n)] for an [int]. *)
Definition str_of_int (n : Z) : string := NilZero.string_of_int (Z.to_int n).

(** [xs[i]] on a list: a negative index counts from the end. *)
Definition list_getitem {A : Type} (xs : list A) (i : Z) : result A :=
  let n := Z.of_nat (length xs) in
  let j := if i <? 0 then i + n else i in
  if (j <? 0) || (n <=? j) then Raise IndexError
  else match nth_error xs (Z.to_nat j) with
       | Some x => Ok x
       | None => Raise IndexError
       end.

(** [xs.index(x)] on a list of strings. *)
Fixpoint list_index (x : string) (xs : list string) : result Z :=
  match xs with
  | [] => Raise ValueError
  | y :: xs' => if String.eqb y x then Ok 0 else Z.succ <$> list_index x xs'
  end.

End Py.


(** ** Numbers: [int], [float], their conversions and their texts *)

Module PyNum.
Import Py.

(** The binary64 value nearest to [a / b] (ties to even), for [0 < a] and
    [0 < b], negated when [neg]: the quotient is taken with more than 64
    significant bits and a sticky last bit, then rounded once. *)
Definition round_ratio (neg : bool) (a b : Z) : spec_float :=
  let k := Z.max 0 (66 + Z.log2 b - Z.log2 a) in
  let n := Z.shiftl a k in
  let m := 2 * (n / b) + (if n mod b =? 0 then 0 else 1) in
  binary_normalize prec emax (if neg then - m else m) (- k - 1) false.

Definition is_inf_sf (x : spec_float) : bool :=
  match x with
  | S754_infinity _ => true
  | _ => false
  end.

(** [float(n)] for an [int]: [OverflowError] beyond the binary64 range. *)
Definition float_of_int (n : Z) : result float :=
  let x := binary_normalize prec emax n 0 false in
  if is_inf_sf x then Raise OverflowError else Ok (SF2Prim x).

(** [a / b] on two [int]s (true division). *)
Definition int_true_div (a b : Z) : result float :=
  if b =? 0 then Raise ZeroDivisionError
  else
    let neg := xorb (a <? 0) (b <? 0) in
    if a =? 0 then Ok (if neg then neg_zero else PrimFloat.zero)
    else
      let x := round_ratio neg (Z.abs a) (Z.abs b) in
      if is_inf_sf x then Raise OverflowError else Ok (SF2Prim x).

(** Truth value of a [float]: false on both zeros only. *)
Definition float_truthy (x : float) : bool := negb (PrimFloat.eqb x PrimFloat.zero).

(** The whitespace that [int()] and [float()] skip at both ends is the C
    locale's. A string with a character above 127 is first rewritten: the
    characters below 127 stay, and an [isspace] character from 127 on
    becomes a blank. *)
Definition is_c_space (c : ascii) : bool := in_range 9 13 c || (code c =? 32).

Fixpoint map_string (f : ascii -> ascii) (s : string) : string :=
  match s with
  | String c s' => String (f c) (map_string f s')
  | EmptyString => EmptyString
  end.

Definition blank_spaces (s : string) : string :=
  if all_chars (fun c => code c <? 128) s then s
  else map_string (fun c => if code c <? 127 then c
                            else if is_space c then " "%char else c) s.

Definition strip_number (s : string) : string :=
  rstrip_by is_c_space (drop_while is_c_space (blank_spaces s)).

Definition digit_value (c : ascii) : Z := code c - 48.

(** Digits with single underscores between them: the value read so far, the
    number of digits read, and what follows the longest such run. *)
Fixpoint digits_go (acc : Z) (n : Z) (s : string) : Z * Z * string :=
  match s with
  | String c s' =>
      if is_digit c then digits_go (10 * acc + digit_value c) (n + 1) s'
      else if Ascii.eqb c "_" then
        match s' with
        | String c' s'' =>
            if is_digit c' then digits_go (10 * acc + digit_value c') (n + 1) s''
            else (acc, n, s)
        | EmptyString => (acc, n, s)
        end
      else (acc, n, s)
  | EmptyString => (acc, n, s)
  end.

(** A run of digits; it is empty when the text starts with something else. *)
Definition digits (s : string) : Z * Z * string :=
  match s with
  | String c _ => if is_digit c then digits_go 0 0 s else (0, 0, s)
  | EmptyString => (0, 0, s)
  end.

(** An optional sign: whether it was a minus, and the rest. *)
Definition sign (s : string) : bool * string :=
  match s with
  | String c s' =>
      if Ascii.eqb c "-" then (true, s')
      else if Ascii.eqb c "+" then (false, s')
      else (false, s)
  | EmptyString => (false, s)
  end.

(** [int(s)] for a [str], base ten. The interpreter's limit on the number
    of digits (a run-time setting) is not part of the model. *)
Definition py_int (s : string) : result Z :=
  let '(neg, t) := sign (strip_number s) in
  let '(v, n, rest) := digits t in
  if (0 <? n) && String.eqb rest "" then Ok (if neg then - v else v)
  else Raise ValueError.

Definition lower (c : ascii) : ascii :=
  if in_range 65 90 c then ascii_of_N (Z.to_N (code c + 32)) else c.

(** The binary64 value nearest to [m * 10 ^ e], for [0 <= m]. *)
Definition decimal_to_float (neg : bool) (m e : Z) : float :=
  if m =? 0 then (if neg then neg_zero else PrimFloat.zero)
  else if 0 <=? e then
    SF2Prim (binary_normalize prec emax ((if neg then - m else m) * 10 ^ e) 0 false)
  else SF2Prim (round_ratio neg m (10 ^ (- e))).

(** The exponent part of a decimal literal, when there is one. *)
Definition exponent (s : string) : option (Z * string) :=
  match s with
  | String c s' =>
      if Ascii.eqb (lower c) "e" then
        let '(neg, t) := sign s' in
        let '(v, n, rest) := digits t in
        if 0 <? n then Some (if neg then - v else v, rest) else None
      else Some (0, s)
  | EmptyString => Some (0, s)
  end.

(** [float(s)] for a [str]. *)
Definition py_float (s : string) : result float :=
  let '(neg, t) := sign (strip_number s) in
  let word := map_string lower t in
  if String.eqb word "inf" || String.eqb word "infinity"
  then Ok (if neg then neg_infinity else infinity)
  else if String.eqb word "nan" then Ok nan
  else
    let '(iv, il, t1) := digits t in
    let '(fv, fl, t2) :=
      match t1 with
      | String c t1' => if Ascii.eqb c "." then digits t1' else (0, 0, t1)
      | EmptyString => (0, 0, t1)
      end in
    if il + fl =? 0 then Raise ValueError
    else match exponent t2 with
         | Some (e, "") => Ok (decimal_to_float neg (iv * 10 ^ fl + fv) (e - fl))
         | _ => Raise ValueError
         end.

(** [n / d] rounded to the nearest integer, ties to even ([0 <= n], [0 < d]). *)
Definition div_half_even (n d : Z) : Z :=
  let q := n / d in
  let r := n mod d in
  if 2 * r <? d then q
  else if d <? 2 * r then q + 1
  else if Z.even q then q else q + 1.

Definition two_digits (n : Z) : string :=
  if n <? 10 then "0" +:+ str_of_int n else str_of_int n.

(** The text of [m * 2 ^ e] with two digits after the point. *)
Definition fixed2 (neg : bool) (m e : Z) : string :=
  let r := if 0 <=? e then m * 2 ^ e * 100 else div_half_even (m * 100) (2 ^ (- e)) in
  (if neg then "-" else "") +:+ str_of_int (r / 100) +:+ "." +:+ two_digits (r mod 100).

(** ["{:.2%}".format(x)] for a [float]: the product with 100 is a float
    product; its exact value is then written with two decimals. *)
Definition format_percent (x : float) : string :=
  match Prim2SF (x * 100)%float with
  | S754_nan => "nan%"
  | S754_infinity neg => if neg then "-inf%" else "inf%"
  | S754_zero neg => fixed2 neg 0 0 +:+ "%"
  | S754_finite neg m e => fixed2 neg (Z.pos m) e +:+ "%"
  end.

(** [s[start:stop:step]]: the bounds as the interpreter adjusts them for a
    sequence of length [len], and the number of elements selected. *)
Definition adjust_index (len step : Z) (is_stop : bool) (i : option Z) : Z :=
  match i with
  | None =>
      if step <? 0 then (if is_stop then -1 else len - 1)
      else (if is_stop then len else 0)
  | Some x =>
      if x <? 0 then
        (if x + len <? 0 then (if step <? 0 then -1 else 0) else x + len)
      else if len <=? x then (if step <? 0 then len - 1 else len)
      else x
  end.

Definition slice_length (start stop step : Z) : Z :=
  if step <? 0 then
    (if stop <? start then (start - stop - 1) / (- step) + 1 else 0)
  else
    (if start <? stop then (stop - start - 1) / step + 1 else 0).

Fixpoint pick_chars (s : string) (i step : Z) (count : nat) : string :=
  match count with
  | O => EmptyString
  | S count' =>
      match String.get (Z.to_nat i) s with
      | Some c => String c (pick_chars s (i + step) step count')
      | None => EmptyString
      end
  end.

Definition slice_str (s : string) (start stop step : option Z) : result string :=
  let st := default 1 step in
  if st =? 0 then Raise ValueError
  else
    let len := Z.of_nat (String.length s) in
    let a := adjust_index len st false start in
    let b := adjust_index len st true stop in
    Ok (pick_chars s a st (Z.to_nat (slice_length a b st))).

End PyNum.

(** ** Decoded JSON and the dynamic operations applied to it *)

Module Json.
Import Py PyNum.

(** What [response.json()] returns. An object keeps its keys in order; a
    key occurs once. *)
Inductive json : Type :=
| JNull
| JBool (b : bool)
| JInt (n : Z)
| JFloat (x : float)
| JStr (s : string)
| JArr (xs : list json)
| JObj (kvs : list (string * json)).

(** Library printers that the program calls and that live outside the
    repository: [repr] of a float, list or dict, and [json.dumps]. *)
Class Printer : Type := {
  repr_json : json -> string;
  json_dumps : json -> string
}.

(** [str(v)] *)
Definition py_str `{Printer} (v : json) : string :=
  match v with
  | JStr s => s
  | JInt n => str_of_int n
  | JBool b => if b then "True" else "False"
  | JNull => "None"
  | _ => repr_json v
  end.

Fixpoint assoc (k : string) (kvs : list (string * json)) : option json :=
  match kvs with
  | [] => None
  | (k', v) :: kvs' => if String.eqb k' k then Some v else assoc k kvs'
  end.

(** [v[k]] with a [str] key. *)
Definition getitem (v : json) (k : string) : result json :=
  match v with
  | JObj kvs =>
      match assoc k kvs with
      | Some x => Ok x
      | None => Raise KeyError
      end
  | _ => Raise TypeError
  end.

(** [v.get(k, [])] *)
Definition get_or_empty (v : json) (k : string) : result json :=
  match v with
  | JObj kvs => Ok (default (JArr []) (assoc k kvs))
  | _ => Raise AttributeError
  end.

Definition is_str (k : string) (v : json) : bool :=
  match v with
  | JStr s => String.eqb s k
  | _ => false
  end.

Definition is_null (v : json) : bool :=
  match v with
  | JNull => true
  | _ => false
  end.

(** [k in v], where [k] is a [str] or [None]. *)
Definition contains (k : option string) (v : json) : result bool :=
  match v, k with
  | JObj kvs, Some key => Ok (bool_decide (is_Some (assoc key kvs)))
  | JObj _, None => Ok false
  | JArr xs, Some key => Ok (existsb (is_str key) xs)
  | JArr xs, None => Ok (existsb is_null xs)
  | JStr s, Some key => Ok (is_substring key s)
  | _, _ => Raise TypeError
  end.

Fixpoint chars (s : string) : list json :=
  match s with
  | String c s' => JStr (String c EmptyString) :: chars s'
  | EmptyString => []
  end.

(** The elements that [for x in v] visits. *)
Definition iterate (v : json) : result (list json) :=
  match v with
  | JArr xs => Ok xs
  | JStr s => Ok (chars s)
  | JObj kvs => Ok (map (fun kv => JStr (fst kv)) kvs)
  | _ => Raise TypeError
  end.

(** [len(v)] *)
Definition len (v : json) : result Z :=
  match v with
  | JArr xs => Ok (Z.of_nat (length xs))
  | JStr s => Ok (Z.of_nat (String.length s))
  | JObj kvs => Ok (Z.of_nat (length kvs))
  | _ => Raise TypeError
  end.

(** Truth value, as in [if v:]. *)
Definition truthy (v : json) : bool :=
  match v with
  | JNull => false
  | JBool b => b
  | JInt n => negb (n =? 0)
  | JFloat x => float_truthy x
  | JStr s => negb (String.eqb s "")
  | JArr xs => negb (bool_decide (xs = []))
  | JObj kvs => negb (bool_decide (kvs = []))
  end.

(** One argument of [slice(...)] when the slice is applied. *)
Definition slice_index (v : json) : result (option Z) :=
  match v with
  | JNull => Ok None
  | JInt n => Ok (Some n)
  | JBool b => Ok (Some (if b then 1 else 0))
  | _ => Raise TypeError
  end.

(** The three arguments of a slice as the interpreter unpacks them: the
    step first, which must not be zero, then the start and the stop. *)
Definition slice_unpack (a b c : json) : result (option Z * option Z * option Z) :=
  step ← slice_index c;
  match step with
  | Some 0 => Raise ValueError
  | _ => start ← slice_index a; stop ← slice_index b; Ok (start, stop, step)
  end.

(** [text[slice(i0, ...)]] for the elements [i0, ...] of [indices], followed
    by the check that the outcome is a [str]: one to three arguments, each
    an integer or [None]. *)
Definition slice_of (text indices : json) : result string :=
  args ← match indices with
         | JArr [b] => Ok (JNull, b, JNull)
         | JArr [a; b] => Ok (a, b, JNull)
         | JArr [a; b; c] => Ok (a, b, c)
         | _ => Raise TypeError
         end;
  let '(a, b, c) := args in
  match text with
  | JStr s =>
      '(start, stop, step) ← slice_unpack a b c;
      slice_str s start stop step
  | JArr _ =>
      _ ← slice_unpack a b c;
      Raise TypeError
  | _ => Raise TypeError
  end.

(** ["{:.2%}".format(v)] *)
Definition format_percent_json (v : json) : result string :=
  match v with
  | JFloat x => Ok (format_percent x)
  | JInt n => format_percent <$> float_of_int n
  | JBool b => Ok (format_percent (if b then 1 else 0)%float)
  | JStr _ => Raise ValueError
  | _ => Raise TypeError
  end.

End Json.

(** ** The three regular expressions of the module

    Each is embedded as the function that tries a match at the start of a
    string, with the backtracking of [re] worked out by hand. A successful
    match returns its groups and the number of characters it consumed after
    the first one (none of the patterns matches the empty string). *)

Module Re.
Import Py.

Inductive token (G : Type) : Type :=
| Lit (c : ascii)
| Hit (g : G).
Arguments Lit {G} c.
Arguments Hit {G} g.

(** The scan of [pattern.sub]: leftmost matches that do not overlap, and the
    characters between them. [skip] counts the characters of the current
    match that are still to be passed over. *)
Fixpoint scan {G : Type} (match_at : string -> option (G * nat))
         (skip : nat) (s : string) : list (token G) :=
  match s with
  | EmptyString => []
  | String c s' =>
      match skip with
      | S k => scan match_at k s'
      | O =>
          match match_at s with
          | Some (g, extra) => Hit g :: scan match_at extra s'
          | None => Lit c :: scan match_at 0 s'
          end
      end
  end.

(** [pattern.sub(repl, s)] for a replacement function that may raise. *)
Fixpoint substitute {G : Type} (repl : G -> result string)
         (ts : list (token G)) : result string :=
  match ts with
  | [] => Ok ""
  | Lit c :: ts' => String c <$> substitute repl ts'
  | Hit g :: ts' => r ← repl g; t ← substitute repl ts'; Ok (r +:+ t)
  end.

Definition re_sub {G : Type} (match_at : string -> option (G * nat))
           (repl : G -> result string) (s : string) : result string :=
  substitute repl (scan match_at 0 s).

(** [lt_amp_re], that is [&(amp|lt);] : the group. *)
Definition lt_amp_re (s : string) : option (string * nat) :=
  if starts_with "&amp;" s then Some ("amp", 4%nat)
  else if starts_with "&lt;" s then Some ("lt", 3%nat)
  else None.

(** The groups [(literal, feature, modifier)] of [template_re]. *)
Definition groups : Type := option string * option string * option string.

Definition is_newline (c : ascii) : bool := code c =? 10.

(** [(.*?) \]] : the shortest run without a newline that a bracket closes. *)
Fixpoint bracket_body (s : string) : option string :=
  match s with
  | EmptyString => None
  | String c s' =>
      if Ascii.eqb c "]" then Some EmptyString
      else if is_newline c then None
      else String c <$> bracket_body s'
  end.

Definition is_word_or_hyphen (c : ascii) : bool := is_word c || Ascii.eqb c "-".

(** [(?: \s+ (as \s+ %) )?] : the modifier and the length of the whole group. *)
Definition modifier_at (s : string) : option (string * nat) :=
  let ws1 := take_while is_space s in
  let s1 := drop_string (String.length ws1) s in
  if negb (String.eqb ws1 "") && starts_with "as" s1 then
    let s2 := drop_string 2 s1 in
    let ws2 := take_while is_space s2 in
    let s3 := drop_string (String.length ws2) s2 in
    if negb (String.eqb ws2 "") && starts_with "%" s3
    then Some ("as" +:+ ws2 +:+ "%",
               (String.length ws1 + 2 + String.length ws2 + 1)%nat)
    else None
  else None.

(** [template_re], written with blanks between its parts:
    [\[ (.*?) \]  |  (\w [\w-]* ) (?: \s+ (as \s+ %) )?] *)
Definition template_re (s : string) : option (groups * nat) :=
  match s with
  | EmptyString => None
  | String c s' =>
      match (if Ascii.eqb c "[" then bracket_body s' else None) with
      | Some body => Some ((Some body, None, None), S (String.length body))
      | None =>
          if is_word c then
            let tail := take_while is_word_or_hyphen s' in
            let after := drop_string (String.length tail) s' in
            match modifier_at after with
            | Some (m, n) =>
                Some ((None, Some (String c tail), Some m), (String.length tail + n)%nat)
            | None => Some ((None, Some (String c tail), None), String.length tail)
            end
          else None
      end
  end.

Fixpoint has_char (p : ascii -> bool) (s : string) : bool :=
  match s with
  | String c s' => p c || has_char p s'
  | EmptyString => false
  end.

(** What [$] leaves out: one newline that ends the string. *)
Definition drop_final_newline (s : string) : string :=
  match rev_string s with
  | String c r => if is_newline c then rev_string r else s
  | EmptyString => s
  end.

(** [ann_type_re], written with blanks between its parts:
    [^ (\S+) (?: \s+ (.* ) )? $], as used by [match]: the two groups, or
    [None] when the pattern does not match. *)
Definition ann_type_re (s : string) : option (string * option string) :=
  let head := take_while (fun c => negb (is_space c)) s in
  let after := drop_string (String.length head) s in
  if String.eqb head "" then None
  else if String.eqb after "" then Some (head, None)
  else
    let rest := drop_final_newline (drop_while is_space after) in
    if has_char is_newline rest then None else Some (head, Some rest).

End Re.

(** ** The functions of [process_csv.py] *)

Module ProcessCsv.
Import Py PyNum Json Re.

Section Extraction.
Context `{Printer}.

Definition lt_amp_replacement (g : string) : string :=
  if String.eqb g "amp" then "&" else "<".

Fixpoint render (ts : list (token string)) : string :=
  match ts with
  | [] => EmptyString
  | Lit c :: ts' => String c (render ts')
  | Hit g :: ts' => lt_amp_replacement g +:+ render ts'
  end.

Definition unescape_lt_amp (s : string) : string := render (scan lt_amp_re 0 s).

(** [response["entities"].get(ann_type, [])], as the loops walk through it. *)
Definition annotations (response : json) (ann_type : string) : result (list json) :=
  entities ← getitem response "entities";
  found ← get_or_empty entities ann_type;
  iterate found.

(** [unescape_lt_amp(response["text"][slice(i0, ...)])] for the elements
    [i0, ...] of [ann["indices"]]. *)
Definition covered_text (response ann : json) : result string :=
  text ← getitem response "text";
  indices ← getitem ann "indices";
  unescape_lt_amp <$> slice_of text indices.

(** The inner function [resp_func] of [text_under]. *)
Definition text_under (ann_type separator : string) (response : json) : result string :=
  anns ← annotations response ann_type;
  parts ← traverse (covered_text response) anns;
  Ok (join separator parts).

(** [ann[feature]], where [feature] is a [str] or [None]. *)
Definition feature_value (ann : json) (feature : option string) : result json :=
  match feature with
  | Some name => getitem ann name
  | None => Raise TypeError
  end.

(** The inner function [replacement] of [response_to_column]. *)
Definition replacement (response ann : json) (m : groups) : result string :=
  let '(literal, feature, modifier) := m in
  match literal with
  | Some (String _ _ as text) => Ok text
  | _ =>
      if bool_decide (feature = Some "text") then covered_text response ann
      else
        present ← contains feature ann;
        if (present : bool) then
          value ← feature_value ann feature;
          if bool_decide (modifier = Some "as %") then format_percent_json value
          else Ok (py_str value)
        else Ok (default "None" feature +:+ " not found")
  end.

(** The inner function [resp_func] of [response_to_column]. *)
Definition response_to_column (ann_type template separator : string)
           (response : json) : result string :=
  anns ← annotations response ann_type;
  chunks ← traverse (fun ann => re_sub template_re (replacement response ann) template) anns;
  Ok (join separator chunks).

(** [ann_type[ann_type.index(":") + 1 :]] *)
Fixpoint after_colon (s : string) : string :=
  match s with
  | String c s' => if Ascii.eqb c ":" then s' else after_colon s'
  | EmptyString => EmptyString
  end.

Definition has_colon (s : string) : bool := has_char (fun c => Ascii.eqb c ":") s.

(** The selector and the annotation type that a first group stands for. *)
Definition resolve (ann_type : string) (type_to_sel : gmap string string) : string * string :=
  if has_colon ann_type then (ann_type, after_colon ann_type)
  else match type_to_sel !! ann_type with
       | Some sel => (sel, ann_type)
       | None => (":" +:+ ann_type, ann_type)
       end.

(** The function of the rest [present?]: [1] or [0], as a string. *)
Definition present_flag (ann_type : string) (response : json) : result string :=
  entities ← getitem response "entities";
  found ← get_or_empty entities ann_type;
  n ← len found;
  Ok (str_of_int (if 0 <? n then 1 else 0)).

(** The function of the rest [#count]. *)
Definition count (ann_type : string) (response : json) : result string :=
  entities ← getitem response "entities";
  found ← get_or_empty entities ann_type;
  n ← len found;
  Ok (str_of_int n).

(** The choice of [fn] by the second group. *)
Definition extractor (ann_type : string) (rest : option string) : json -> result string :=
  match rest with
  | None => text_under ann_type ";"
  | Some r =>
      if String.eqb r "" || String.eqb r "text" then text_under ann_type ";"
      else if String.eqb r "present?" then present_flag ann_type
      else if String.eqb r "#count" then count ann_type
      else response_to_column ann_type r ";"
  end.

Definition output_function (col : string) (type_to_sel : gmap string string)
  : result (string * (json -> result string)) :=
  match ann_type_re (strip col) with
  | None => Raise AttributeError
  | Some (ann_type, rest) =>
      let '(ann_selector, ann_type) := resolve ann_type type_to_sel in
      Ok (ann_selector, extractor ann_type rest)
  end.

End Extraction.

(** *** The rate limiter *)

(** What the program reads of a [requests.Response]. Header names are in
    lower case, as the look-up of [response.headers] ignores case. [body]
    is what [response.json()] returns, or the text of the
    [requests.JSONDecodeError] it raises. *)
Inductive body : Type :=
| Decoded (j : json)
| Undecodable (message : string).

Record response : Type := {
  status_code : Z;
  headers : gmap string string;
  json_body : body;
  text : string
}.

(** The two attributes of [CsvProcessor] that change during a run. *)
Record limiter : Type := {
  prev_rate_limit_remaining : Z;
  request_start_time : option float
}.

Definition header (r : response) (name : string) : result string :=
  match headers r !! name with
  | Some v => Ok v
  | None => Raise KeyError
  end.

Definition rate_limited (r : response) : bool :=
  (status_code r =? 429) || (status_code r =? 402).

Definition has_retry_after (r : response) : bool :=
  bool_decide (is_Some (headers r !! "retry-after")).

(** The two assignments under the inner [try]. *)
Definition read_limits (r : response) : result (Z * Z) :=
  calls ← header r "x-gate-rate-limit-calls";
  this_rate_limit_remaining ← py_int calls;
  reset ← header r "x-gate-rate-limit-reset";
  time_until_reset ← py_int reset;
  Ok (this_rate_limit_remaining, time_until_reset).

Definition used_limit_since_last_call (prev this : Z) : Z :=
  if (0 <? prev) && (prev <? this) then this - prev else 1.

(** [if self.request_start_time: wait += self.request_start_time - now] *)
Definition start_to_start (start : option float) (now wait : float) : float :=
  match start with
  | Some t => if float_truthy t then (wait + (t - now))%float else wait
  | None => wait
  end.

Definition clamp (wait : float) : float :=
  if (0 <? wait)%float then wait else 0%float.

(** [handle_rate_limit(self, response)]; [now] is the value that
    [time.perf_counter()] has when the function reads it. The result is the
    wait and the attributes of [self] afterwards. *)
Definition handle_rate_limit (self : limiter) (r : response) (now : float)
  : result (float * limiter) :=
  if rate_limited r && has_retry_after r then
    v ← header r "retry-after";
    wait ← py_float v;
    Ok (wait, self)
  else
    match read_limits r with
    | Raise ValueError => Ok (0%float, self)
    | Raise e => Raise e
    | Ok (this_rate_limit_remaining, time_until_reset) =>
        let used :=
          used_limit_since_last_call (prev_rate_limit_remaining self)
                                     this_rate_limit_remaining in
        let self' := {| prev_rate_limit_remaining := this_rate_limit_remaining;
                        request_start_time := request_start_time self |} in
        per_call ← int_true_div time_until_reset this_rate_limit_remaining;
        used_f ← float_of_int used;
        let wait := (per_call * used_f * 1.05)%float in
        Ok (clamp (start_to_start (request_start_time self) now wait), self')
    end.

(** The attributes of [self] when [handle_rate_limit] is left, by a return
    or by an exception: the remaining count is stored as soon as both limit
    headers are read, before the division that may raise. *)
Definition limiter_after (self : limiter) (r : response) : limiter :=
  if rate_limited r && has_retry_after r then self
  else
    match read_limits r with
    | Ok (this_rate_limit_remaining, _) =>
        {| prev_rate_limit_remaining := this_rate_limit_remaining;
           request_start_time := request_start_time self |}
    | Raise _ => self
    end.

(** [time.sleep(seconds)]: what it accepts. The length is turned into
    nanoseconds in a signed 64-bit integer: a product beyond the range
    raises [OverflowError]; the product 2^63 passes that check and converts
    to the least integer (on x86-64), so it is refused as negative like any
    length below zero. *)
Definition sleep (seconds : float) : result unit :=
  if is_nan seconds then Raise ValueError
  else
    let ns := (seconds * 1e9)%float in
    if negb ((-9223372036854775808 <=? ns)%float && (ns <=? 9223372036854775808)%float)
    then Raise OverflowError
    else if (seconds <? 0)%float || (ns =? 9223372036854775808)%float then Raise ValueError
    else Ok tt.

(** *** The row loop of [CsvProcessor.run] *)

(** One call of [self.session.post]: the value of [time.perf_counter()]
    just before it, what the call does, and the value of the clock when
    [handle_rate_limit] next reads it. *)
Inductive answer : Type :=
| Responded (r : response)
| RequestException (message : string).

Record attempt : Type := {
  started : float;
  answered : answer;
  clock : float
}.

(** The attributes of [self] that [run] only reads. *)
Record processor : Type := {
  has_headers : bool;
  text_column : string;
  copy_columns : list string;
  output_columns : list string;
  output_functions : list (json -> result string)
}.

(** The variables of [run] that outlive one iteration. [last_response] is
    the local [response], unbound until the first call returns. *)
Record locals : Type := {
  self_limiter : limiter;
  rate_limit_failures : Z;
  wait_before_next_call : float;
  last_response : option response
}.

(** How a run ends: the input is used up, [sys.exit(code)], an exception
    that nothing catches, or the environment has no further answer (the
    program is then waiting for one). *)
Inductive ending : Type :=
| Finished
| Exit (code : Z)
| Uncaught (e : exn)
| Pending.

(** One pass through the body of [while True], after the call returned:
    the loop goes round again, is left by [break], or the run stops. Each
    carries the variables as they are at that point. *)
Inductive step : Type :=
| Again (l : locals)
| Break (results : list string) (err_json : json) (l : locals)
| Stop (e : ending) (l : locals).

Definition message_of (m : string) : json := JObj [("message", JStr m)].

Definition with_response (l : locals) (r : response) : locals :=
  {| self_limiter := self_limiter l;
     rate_limit_failures := rate_limit_failures l;
     wait_before_next_call := wait_before_next_call l;
     last_response := Some r |}.

Definition started_at (l : locals) (t : float) : locals :=
  {| self_limiter := {| prev_rate_limit_remaining := prev_rate_limit_remaining (self_limiter l);
                        request_start_time := Some t |};
     rate_limit_failures := rate_limit_failures l;
     wait_before_next_call := wait_before_next_call l;
     last_response := last_response l |}.

(** [text in resp_json and entities in resp_json], with the two key names. *)
Definition is_annotated (resp_json : json) : result bool :=
  has_text ← contains (Some "text") resp_json;
  if (has_text : bool) then contains (Some "entities") resp_json else Ok false.

(** The variables once a 429 or 402 is counted, with the attributes [lim]
    of the limiter. *)
Definition counted (l : locals) (lim : limiter) : locals :=
  {| self_limiter := lim;
     rate_limit_failures := rate_limit_failures l + 1;
     wait_before_next_call := wait_before_next_call l;
     last_response := last_response l |}.

Definition on_response (self : processor) (results : list string)
           (l : locals) (a : attempt) (r : response) : step :=
  if status_code r =? 200 then
    match json_body r with
    | Undecodable m => Break results (message_of m) l
    | Decoded resp_json =>
        match is_annotated resp_json with
        | Raise e => Stop (Uncaught e) l
        | Ok false => Again l
        | Ok true =>
            match traverse (fun f => f resp_json) (output_functions self) with
            | Raise e => Stop (Uncaught e) l
            | Ok derived => Break (results ++ "Success" :: derived)%list JNull l
            end
        end
    end
  else if rate_limited r then
    let failures := rate_limit_failures l + 1 in
    if 5 <? failures then Stop (Exit 1) (counted l (self_limiter l))
    else
      match handle_rate_limit (self_limiter l) r (clock a) with
      | Raise e => Stop (Uncaught e) (counted l (limiter_after (self_limiter l) r))
      | Ok (wait, lim) =>
          Again {| self_limiter := lim;
                   rate_limit_failures := failures;
                   wait_before_next_call := wait;
                   last_response := last_response l |}
      end
  else
    match json_body r with
    | Decoded err_json => Break results err_json l
    | Undecodable _ => Break results (message_of (text r)) l
    end.

(** The body of [while True] from the assignment of [request_start_time]
    on, for the answer [a] of the service. *)
Definition on_attempt (self : processor) (results : list string)
           (l : locals) (a : attempt) : step :=
  let l1 := started_at l (started a) in
  match answered a with
  | RequestException m => Break results (message_of m) l1
  | Responded r => on_response self results (with_response l1 r) a r
  end.

Section Rows.
Context `{Printer}.

(** The status field of a row that ended with [err_json]. *)
Definition error_status (err_json : json) : result (list string) :=
  if truthy err_json then
    has_message ← contains (Some "message") err_json;
    if (has_message : bool) then
      m ← getitem err_json "message";
      Ok ["Error: " +:+ py_str m]
    else Ok ["Error: " +:+ json_dumps err_json]
  else Ok [].

(** The variables after the limiter call that follows the loop. *)
Definition limited (l : locals) (lim : limiter) (wait : float) : locals :=
  {| self_limiter := lim;
     rate_limit_failures := rate_limit_failures l;
     wait_before_next_call := wait;
     last_response := last_response l |}.

(** What follows the [while] loop: the limiter call on the local
    [response], the status of a failed row, and the record; with the
    variables as they are when the record is written or the exception
    leaves. *)
Definition after_loop (results : list string) (err_json : json)
           (l : locals) (a : attempt) : locals * result (list string) :=
  match last_response l with
  | None => (l, Raise UnboundLocalError)
  | Some r =>
      match handle_rate_limit (self_limiter l) r (clock a) with
      | Raise e =>
          (limited l (limiter_after (self_limiter l) r) (wait_before_next_call l), Raise e)
      | Ok (wait, lim) =>
          (limited l lim wait,
           status ← error_status err_json; Ok (results ++ status)%list)
      end
  end.

(** How the work on one row ends: with a record, or with the run stopped;
    in both cases the variables at that point and the answers not asked
    for. A run that waits for an answer has not yet assigned the start time
    of the call it is about to make. *)
Inductive row_end : Type :=
| Written (record : list string) (l : locals) (rest : list attempt)
| Halted (e : ending) (l : locals) (rest : list attempt).

(** The [while True] loop of one row and what follows it. *)
Fixpoint attempts (self : processor) (row : list string) (columns : list Z)
         (l : locals) (env : list attempt) : row_end :=
  match traverse (list_getitem row) columns with
  | Raise e => Halted (Uncaught e) l env
  | Ok results =>
      match sleep (wait_before_next_call l) with
      | Raise e => Halted (Uncaught e) l env
      | Ok _ =>
          match env with
          | [] => Halted Pending l env
          | a :: env' =>
              match on_attempt self results l a with
              | Again l' => attempts self row columns l' env'
              | Stop e l' => Halted e l' env'
              | Break results' err_json l' =>
                  match after_loop results' err_json l' a with
                  | (l'', Raise e) => Halted (Uncaught e) l'' env'
                  | (l'', Ok record) => Written record l'' env'
                  end
              end
          end
      end
  end.

Definition process_row (self : processor) (text_index : Z) (columns : list Z)
           (row : list string) (l : locals) (env : list attempt) : row_end :=
  match list_getitem row text_index with
  | Raise e => Halted (Uncaught e) l env
  | Ok _ => attempts self row columns l env
  end.

(** What a run leaves behind. *)
Record report : Type := {
  ended : ending;
  written : list (list string);
  final : locals;
  unused : list attempt
}.

(** [for idx, row in enumerate(r)] *)
Fixpoint rows_loop (self : processor) (text_index : Z) (columns : list Z)
         (rows : list (list string)) (l : locals) (env : list attempt) : report :=
  match rows with
  | [] => {| ended := Finished; written := []; final := l; unused := env |}
  | row :: rows' =>
      match process_row self text_index columns row l env with
      | Halted e l' env' => {| ended := e; written := []; final := l'; unused := env' |}
      | Written record l' env' =>
          let rep := rows_loop self text_index columns rows' l' env' in
          {| ended := ended rep; written := record :: written rep;
             final := final rep; unused := unused rep |}
      end
  end.

(** The attributes as [__init__] sets them. *)
Definition new_limiter : limiter :=
  {| prev_rate_limit_remaining := -1; request_start_time := None |}.

Definition new_locals (lim : limiter) : locals :=
  {| self_limiter := lim;
     rate_limit_failures := 0;
     wait_before_next_call := 0%float;
     last_response := None |}.

(** The positions of the text column and of the copied columns, the header
    fields of the copied columns, and the rows still to be read. *)
Definition columns_of (self : processor) (input : list (list string))
  : result (Z * list Z * list string * list (list string)) :=
  if has_headers self then
    match input with
    | [] => Raise StopIteration
    | first_row :: rows =>
        text_index ← list_index (text_column self) first_row;
        columns ← traverse (fun c => list_index c first_row) (copy_columns self);
        names ← traverse (list_getitem first_row) columns;
        Ok (text_index, columns, names, rows)
    end
  else
    text_index ← py_int (text_column self);
    columns ← traverse (fun c => (fun n => n - 1) <$> py_int c) (copy_columns self);
    Ok (text_index - 1, columns,
        map (fun c => "Column " +:+ str_of_int (c + 1)) columns, input).

(** [run(self, in_file, in_encoding, out_file, out_encoding)]: [input] is
    what the reader yields, [lim] the two attributes of [self] at the call,
    [env] the answers of the service. The first record written is the
    header. *)
Definition run (self : processor) (lim : limiter)
           (input : list (list string)) (env : list attempt) : report :=
  match columns_of self input with
  | Raise e =>
      {| ended := Uncaught e; written := []; final := new_locals lim; unused := env |}
  | Ok (text_index, columns, names, rows) =>
      let col_headers := (names ++ "status" :: output_columns self)%list in
      let rep := rows_loop self text_index columns rows (new_locals lim) env in
      {| ended := ended rep; written := col_headers :: written rep;
         final := final rep; unused := unused rep |}
  end.

End Rows.
End ProcessCsv.

(** ** Setting up a processor: [get_annotations_from_metadata] and [__init__] *)

Module Setup.
Import Py PyNum Json Re ProcessCsv.

(** [s.split(sep)] for a separator of one character. *)
Fixpoint split_on (sep : ascii) (s : string) : list string :=
  match s with
  | EmptyString => [EmptyString]
  | String c s' =>
      if Ascii.eqb c sep then EmptyString :: split_on sep s'
      else match split_on sep s' with
           | part :: parts => String c part :: parts
           | [] => [String c EmptyString]
           end
  end.

(** [service_metadata.get(key)] *)
Definition get_or_none (service_metadata : json) (key : string) : result json :=
  match service_metadata with
  | JObj kvs => Ok (default JNull (assoc key kvs))
  | _ => Raise AttributeError
  end.

(** What one of the two [if service_metadata.get(key):] blocks adds to
    [all_selectors]. *)
Definition selectors_in (service_metadata : json) (key : string) : result (list string) :=
  v ← get_or_none service_metadata key;
  if truthy v then
    match v with
    | JStr s => Ok (map strip (split_on "," s))
    | _ => Raise AttributeError
    end
  else Ok [].

(** One pass of [for selector in all_selectors]: the type is what follows
    the first colon, and a type that has a selector keeps it. *)
Definition remember (type_to_sel : gmap string string) (selector : string)
  : gmap string string :=
  let ann_type := after_colon selector in
  match type_to_sel !! ann_type with
  | Some _ => type_to_sel
  | None => <[ann_type := selector]> type_to_sel
  end.

Definition remember_all (all_selectors : list string) : gmap string string :=
  fold_left remember all_selectors ∅.

(** [get_annotations_from_metadata(self)], for the response [r] that the
    call to the metadata address returns. A body that does not decode makes
    [resp.json()] raise an exception that is a [ValueError]. *)
Definition get_annotations_from_metadata (r : response) : result (gmap string string) :=
  if status_code r =? 200 then
    match json_body r with
    | Undecodable _ => Raise ValueError
    | Decoded service_metadata =>
        defaults ← selectors_in service_metadata "defaultAnnotations";
        additional ← selectors_in service_metadata "additionalAnnotations";
        Ok (remember_all (defaults ++ additional)%list)
    end
  else Ok ∅.

(** The arguments that [__init__] reads for the columns. *)
Record arguments : Type := {
  arg_has_headers : bool;
  arg_text_column : string;
  arg_copy_columns : list string;
  arg_results : list string
}.

Definition not_blank (s : string) : bool := negb (String.eqb s EmptyString).

(** [[c for c in [c.strip() for c in xs] if c]] *)
Definition stripped (xs : list string) : list string :=
  List.filter not_blank (map strip xs).

Section Init.
Context `{Printer}.

(** The selectors and the functions of the output columns: every
    definition is compiled before the two lists are taken apart, and
    [next] finds nothing when there is no definition. *)
Definition compile (output_columns : list string) (type_to_sel : gmap string string)
  : result (gset string * list (json -> result string)) :=
  pairs ← traverse (fun c => output_function c type_to_sel) output_columns;
  match pairs with
  | [] => Raise StopIteration
  | _ :: _ => Ok (list_to_set (map fst pairs), map snd pairs)
  end.

(** [__init__(self, args, credentials)]: the processor and the set of
    annotation selectors sent with every call. [metadata] is the response
    to the metadata request. *)
Definition init (args : arguments) (metadata : response)
  : result (processor * gset string) :=
  type_to_sel ← get_annotations_from_metadata metadata;
  let columns := stripped (arg_results args) in
  '(ann_selectors, functions) ← compile columns type_to_sel;
  Ok ({| has_headers := arg_has_headers args;
         text_column := arg_text_column args;
         copy_columns := stripped (arg_copy_columns args);
         output_columns := columns;
         output_functions := functions |},
      ann_selectors).

End Init.
End Setup.

(** ** Well-formed service responses

    The shape that the service documents for a successful answer, and its
    image as decoded JSON: the features of an annotation sit beside its
    [indices] in one object. *)

Module Service.
Import Py PyNum Json ProcessCsv.

Record annotation : Type := {
  indices : Z * Z;
  features : list (string * json)
}.

Record service_response : Type := {
  full_text : string;
  entities : list (string * list annotation)
}.

Definition encode_annotation (a : annotation) : json :=
  JObj (("indices", JArr [JInt (fst (indices a)); JInt (snd (indices a))]) :: features a).

Definition encode_entities (es : list (string * list annotation)) : list (string * json) :=
  map (fun e => (fst e, JArr (map encode_annotation (snd e)))) es.

Definition encode (r : service_response) : json :=
  JObj [("text", JStr (full_text r)); ("entities", JObj (encode_entities (entities r)))].



(** [s[i:j]] *)
Definition span (s : string) (i j : Z) : string :=
  let len := Z.of_nat (String.length s) in
  let a := adjust_index len 1 false (Some i) in
  let b := adjust_index len 1 true (Some j) in
  pick_chars s a 1 (Z.to_nat (slice_length a b 1)).

(** The text under an annotation, unescaped. *)
Definition text_of (r : service_response) (a : annotation) : string :=
  unescape_lt_amp (span (full_text r) (fst (indices a)) (snd (indices a))).

End Service.

(** ** Observations on a run *)

Module Observe.
Import Py PyNum Json ProcessCsv.

Definition is_hit (a : attempt) : bool :=
  match answered a with
  | Responded r => rate_limited r
  | RequestException _ => false
  end.

(** The number of answers with status 429 or 402. *)
Fixpoint hits (atts : list attempt) : Z :=
  match atts with
  | [] => 0
  | a :: atts' => (if is_hit a then 1 else 0) + hits atts'
  end.

(** How a stop relates to the answers consumed so far, for a counter that
    started at [f]. *)
Definition cap_respected (f : Z) (e : ending) (used : list attempt) : Prop :=
  (e = Exit 1 /\ f + hits used = 6 /\
   exists before a, used = (before ++ [a])%list /\ is_hit a = true)
  \/ ((forall c, e <> Exit c) /\ f + hits used <= 5).

(** The response of the last call that returned one. *)
Fixpoint latest (atts : list attempt) : option response :=
  match atts with
  | [] => None
  | a :: atts' =>
      match latest atts' with
      | Some r => Some r
      | None => match answered a with
                | Responded r => Some r
                | RequestException _ => None
                end
      end
  end.

(** The fields of a record written for [row]: the copied fields, then
    either [Success] and one value per output function, or at most one
    status that starts with [Error: ]. *)
Definition record_of (self : processor) (columns : list Z)
           (row record : list string) : Prop :=
  exists copied, traverse (list_getitem row) columns = Ok copied /\
    ((exists derived, record = (copied ++ "Success" :: derived)%list /\
                      length derived = length (output_functions self))
     \/ (exists status, record = (copied ++ status)%list /\
                        (length status <= 1)%nat /\
                        Forall (fun s => starts_with "Error: " s = true) status)).

(** An answer with a status other than 200, 429 and 402. *)
Definition is_error (r : response) : Prop :=
  status_code r <> 200 /\ status_code r <> 429 /\ status_code r <> 402.

Section Records.
Context `{Printer}.

(** What the answer that ends the work on a row puts after the copied
    fields of the record: [Success] and the values of the output functions
    on an annotated answer; the text of the exception for a call that
    failed or a 200 whose body is no JSON; for an error answer the raw body
    when it is no JSON, its [message] member, the whole payload when it is
    true and has no such member, and nothing when the payload is false. *)
Inductive outcome (self : processor) (a : attempt) : list string -> Prop :=
| annotated (r : response) (j : json) (derived : list string) :
    answered a = Responded r -> status_code r = 200 -> json_body r = Decoded j ->
    contains (Some "text") j = Ok true -> contains (Some "entities") j = Ok true ->
    traverse (fun f => f j) (output_functions self) = Ok derived ->
    outcome self a ("Success" :: derived)
| call_failed (m : string) :
    answered a = RequestException m ->
    outcome self a ["Error: " +:+ m]
| not_json (r : response) (m : string) :
    answered a = Responded r -> status_code r = 200 -> json_body r = Undecodable m ->
    outcome self a ["Error: " +:+ m]
| error_text (r : response) (m : string) :
    answered a = Responded r -> is_error r -> json_body r = Undecodable m ->
    outcome self a ["Error: " +:+ text r]
| error_message (r : response) (kvs : list (string * json)) (m : json) :
    answered a = Responded r -> is_error r -> json_body r = Decoded (JObj kvs) ->
    assoc "message" kvs = Some m ->
    outcome self a ["Error: " +:+ py_str m]
| error_payload (r : response) (err_json : json) :
    answered a = Responded r -> is_error r -> json_body r = Decoded err_json ->
    truthy err_json = true -> contains (Some "message") err_json = Ok false ->
    outcome self a ["Error: " +:+ json_dumps err_json]
| error_silent (r : response) (err_json : json) :
    answered a = Responded r -> is_error r -> json_body r = Decoded err_json ->
    truthy err_json = false ->
    outcome self a [].


End Records.




(** The wait as the specification words it: the interval, the start
    time added whenever one is recorded, and the clamp. *)
Definition pacing_as_stated (start : option float) (now interval : float) : float :=
  clamp (match start with
         | Some t => (interval + (t - now))%float
         | None => interval
         end).

End Observe.

(** ** Sample values *)

Module Sample.
Import Py PyNum Json ProcessCsv Service.

(** A printer for the samples. They print no float, no dict and no list
    other than lists of integers, for which [repr] is as below; what the
    printer returns elsewhere is never looked at. *)
Definition repr_of_integers (v : json) : string :=
  match v with
  | JArr xs =>
      "[" +:+ join ", " (map (fun x => match x with
                                       | JInt n => str_of_int n
                                       | _ => ""
                                       end) xs) +:+ "]"
  | _ => ""
  end.

Definition printer : Printer :=
  {| repr_json := repr_of_integers; json_dumps := fun _ => "" |}.

(** The digit one followed by four hundred zeros. *)
Definition huge : string := "1" +:+ string_of_list_ascii (repeat "0"%char 400).

Definition reply (status : Z) (hs : list (string * string)) (b : body) : response :=
  {| status_code := status; headers := list_to_map hs; json_body := b; text := "" |}.

Definition limits (calls reset : string) : list (string * string) :=
  [("x-gate-rate-limit-calls", calls); ("x-gate-rate-limit-reset", reset)].

Definition at_times (t0 t1 : float) (a : answer) : attempt :=
  {| started := t0; answered := a; clock := t1 |}.

Definition tagged : service_response :=
  {| full_text := "A &amp; B &lt;tag&gt;";
     entities := [("Tag", [{| indices := (0, 21); features := [] |}])] |}.

Definition scored : service_response :=
  {| full_text := "Bob met Al";
     entities := [("Person", [{| indices := (0, 3);
                                 features := [("conf", JFloat 0.8532); ("kind", JStr "person")] |};
                              {| indices := (8, 10); features := [("kind", JStr "person")] |}])] |}.

(** A processor with one copied column and one counting column, on a file
    without header row. *)
Definition counting : processor :=
  {| has_headers := false;
     text_column := "1";
     copy_columns := ["1"];
     output_columns := ["Person #count"];
     output_functions := [ProcessCsv.count "Person"] |}.


Definition success : attempt :=
  at_times 1 2 (Responded (reply 200 (limits "10" "100") (Decoded (encode scored)))).

Definition busy : attempt :=
  at_times 1 2 (Responded (reply 429 (("retry-after", "0") :: limits "0" "100")
                                 (Undecodable ""))).

(** The variables of [run] when five answers with status 429 or 402 have
    been counted. *)
Definition five_counted : locals :=
  {| self_limiter := new_limiter;
     rate_limit_failures := 5;
     wait_before_next_call := 0%float;
     last_response := None |}.

(** The variables of [run] after the row answered by [failure]. *)
Definition after_failure : locals :=
  {| self_limiter := {| prev_rate_limit_remaining := 10; request_start_time := Some 1%float |};
     rate_limit_failures := 0;
     wait_before_next_call := 9.5%float;
     last_response := Some (reply 500 (limits "10" "100")
                                  (Decoded (JObj [("message", JStr "boom")]))) |}.

End Sample.

Import Py PyNum Json Re ProcessCsv Setup Service Observe.

(** ** Properties of the rate limiter *)

Section RateLimiter.

Lemma header_present (r : response) (name v : string) :
  headers r !! name = Some v -> header r name = Ok v.
Proof. unfold header. intros ->. reflexivity. Qed.

Lemma header_absent (r : response) (name : string) :
  headers r !! name = None -> header r name = Raise KeyError.
Proof. unfold header. intros ->. reflexivity. Qed.

Lemma read_limits_numeric (r : response) (calls reset : string) (n m : Z) :
  headers r !! "x-gate-rate-limit-calls" = Some calls -> py_int calls = Ok n ->
  headers r !! "x-gate-rate-limit-reset" = Some reset -> py_int reset = Ok m ->
  read_limits r = Ok (n, m).
Proof.
  intros Hc Hn Hr Hm. unfold read_limits.
  rewrite (header_present _ _ _ Hc). cbn. rewrite Hn. cbn.
  rewrite (header_present _ _ _ Hr). cbn. rewrite Hm. reflexivity.
Qed.

(** A header that is there and is no integer makes the limiter return zero
    and leave its attributes alone. *)
Lemma calls_not_numeric (self : limiter) (r : response) (now : float) (calls : string) :
  rate_limited r && has_retry_after r = false ->
  headers r !! "x-gate-rate-limit-calls" = Some calls -> py_int calls = Raise ValueError ->
  handle_rate_limit self r now = Ok (0%float, self).
Proof.
  intros Hg Hc Hn. unfold handle_rate_limit, read_limits. rewrite Hg.
  rewrite (header_present _ _ _ Hc). cbn. rewrite Hn. reflexivity.
Qed.

Lemma reset_not_numeric (self : limiter) (r : response) (now : float)
      (calls reset : string) (n : Z) :
  rate_limited r && has_retry_after r = false ->
  headers r !! "x-gate-rate-limit-calls" = Some calls -> py_int calls = Ok n ->
  headers r !! "x-gate-rate-limit-reset" = Some reset -> py_int reset = Raise ValueError ->
  handle_rate_limit self r now = Ok (0%float, self).
Proof.
  intros Hg Hc Hn Hr Hm. unfold handle_rate_limit, read_limits. rewrite Hg.
  rewrite (header_present _ _ _ Hc). cbn. rewrite Hn. cbn.
  rewrite (header_present _ _ _ Hr). cbn. rewrite Hm. reflexivity.
Qed.

Lemma py_int_raises_value_error (s : string) (e : exn) :
  py_int s = Raise e -> e = ValueError.
Proof.
  unfold py_int. destruct (sign _) as [neg t]. destruct (digits t) as [[v n] rest].
  destruct (_ && _); intros Heq; congruence.
Qed.

Lemma clamp_sign (w : float) : clamp w = 0%float \/ (0 <? clamp w)%float = true.
Proof.
  unfold clamp. destruct (0 <? w)%float eqn:E; [right; exact E | left; reflexivity].
Qed.

(** C3. A response with status 429 or 402 that carries a retry-after
    duration makes [handle_rate_limit] return that duration, whatever the
    other headers say, and leaves the attributes of the limiter (the
    previous remaining count among them) as they were. *)
Theorem retry_after_is_returned (self : limiter) (r : response) (now : float)
        (v : string) (wait : float) :
  rate_limited r = true ->
  headers r !! "retry-after" = Some v ->
  py_float v = Ok wait ->
  handle_rate_limit self r now = Ok (wait, self).
Proof.
  intros Hs Hv Hw. unfold handle_rate_limit, has_retry_after.
  rewrite Hs, Hv. rewrite bool_decide_eq_true_2 by eauto. cbn.
  rewrite (header_present _ _ _ Hv). cbn. rewrite Hw. reflexivity.
Qed.

Lemma retry_after_thirty :
  handle_rate_limit {| prev_rate_limit_remaining := 7; request_start_time := Some 1.5%float |}
    (Sample.reply 429 (("retry-after", "30") :: Sample.limits "3" "60") (Undecodable ""))
    9%float
  = Ok (30%float, {| prev_rate_limit_remaining := 7; request_start_time := Some 1.5%float |}).
Proof.
  apply (retry_after_is_returned _ _ _ "30" 30%float); vm_compute; reflexivity.
Defined.

(** C4. Evaluation at a response without the remaining-calls header: the
    look-up raises [KeyError], which the handler for [ValueError] does not
    catch, so [handle_rate_limit] fails instead of returning zero. *)
Theorem absent_calls_header_raises (self : limiter) (r : response) (now : float) :
  rate_limited r && has_retry_after r = false ->
  headers r !! "x-gate-rate-limit-calls" = None ->
  handle_rate_limit self r now = Raise KeyError.
Proof.
  intros Hg Hc. unfold handle_rate_limit, read_limits. rewrite Hg.
  rewrite (header_absent _ _ Hc). reflexivity.
Qed.

Lemma absent_calls_header_sample :
  handle_rate_limit new_limiter (Sample.reply 200 [] (Undecodable "")) 0%float
  = Raise KeyError.
Proof.
  apply absent_calls_header_raises; vm_compute; reflexivity.
Defined.

(** The same for the reset header, once the remaining count was read. *)
Lemma absent_reset_header_raises (self : limiter) (r : response) (now : float)
      (calls : string) (n : Z) :
  rate_limited r && has_retry_after r = false ->
  headers r !! "x-gate-rate-limit-calls" = Some calls -> py_int calls = Ok n ->
  headers r !! "x-gate-rate-limit-reset" = None ->
  handle_rate_limit self r now = Raise KeyError.
Proof.
  intros Hg Hc Hn Hr. unfold handle_rate_limit, read_limits. rewrite Hg.
  rewrite (header_present _ _ _ Hc). cbn. rewrite Hn. cbn.
  rewrite (header_absent _ _ Hr). reflexivity.
Qed.

(** Two floats are distinct when the first is a number and comparing them
    says so. *)
Lemma floats_differ (x y : float) :
  PrimFloat.eqb x x = true -> PrimFloat.eqb x y = false -> x <> y.
Proof. intros Hx Hxy Heq. subst y. congruence. Qed.

(** C5. When the response is no 429 or 402 with a retry-after, both limit
    headers are integers and the quotient of the reset time by the remaining
    count exists, [handle_rate_limit] stores the remaining count and
    computes the wait as that quotient times the calls used since the last
    call times 1.05; it adds the start time minus the current time when a
    start time is recorded and is not zero, and returns zero instead of a
    wait that is not positive. *)
Theorem pacing_interval (self : limiter) (r : response) (now : float)
        (calls reset : string) (remaining time_until_reset : Z)
        (per_call used : float) :
  rate_limited r && has_retry_after r = false ->
  headers r !! "x-gate-rate-limit-calls" = Some calls -> py_int calls = Ok remaining ->
  headers r !! "x-gate-rate-limit-reset" = Some reset -> py_int reset = Ok time_until_reset ->
  int_true_div time_until_reset remaining = Ok per_call ->
  float_of_int (used_limit_since_last_call (prev_rate_limit_remaining self) remaining)
    = Ok used ->
  let interval := (per_call * used * 1.05)%float in
  let wait :=
    match request_start_time self with
    | Some t => if float_truthy t then (interval + (t - now))%float else interval
    | None => interval
    end in
  handle_rate_limit self r now
  = Ok (if (0 <? wait)%float then wait else 0%float,
        {| prev_rate_limit_remaining := remaining;
           request_start_time := request_start_time self |}).
Proof.
  intros Hg Hc Hn Hr Hm Hq Hu interval wait. unfold handle_rate_limit.
  rewrite Hg, (read_limits_numeric _ _ _ _ _ Hc Hn Hr Hm).
  cbn. rewrite Hq. cbn. rewrite Hu. reflexivity.
Qed.

Lemma pacing_ten_and_a_half :
  handle_rate_limit new_limiter (Sample.reply 200 (Sample.limits "10" "100") (Undecodable ""))
    0%float
  = Ok (10.5%float, {| prev_rate_limit_remaining := 10; request_start_time := None |}).
Proof.
  apply (pacing_interval new_limiter _ 0%float "10" "100" 10 100 10%float 1%float);
    vm_compute; reflexivity.
Defined.

(** With a recorded start time of zero the start-to-start term is left
    out: the code returns 10.5 where the described computation gives 6.5.
    With a remaining count of zero, or a reset time beyond the floats, there
    is no wait at all; and a 429 with a retry-after returns the retry-after
    even though both limit headers are integers. *)
Lemma pacing_as_stated_fails :
  let self := {| prev_rate_limit_remaining := -1; request_start_time := Some 0%float |} in
  handle_rate_limit self (Sample.reply 200 (Sample.limits "10" "100") (Undecodable "")) 4%float
  = Ok (10.5%float, {| prev_rate_limit_remaining := 10; request_start_time := Some 0%float |})
  /\ pacing_as_stated (request_start_time self) 4 10.5 = 6.5%float
  /\ 10.5%float <> 6.5%float
  /\ handle_rate_limit self (Sample.reply 200 (Sample.limits "0" "100") (Undecodable "")) 4%float
     = Raise ZeroDivisionError
  /\ handle_rate_limit self (Sample.reply 200 (Sample.limits "1" Sample.huge) (Undecodable ""))
       4%float
     = Raise OverflowError
  /\ handle_rate_limit self
       (Sample.reply 429 (("retry-after", "7") :: Sample.limits "10" "100") (Undecodable ""))
       4%float
     = Ok (7%float, self).
Proof.
  cbv zeta. split; [vm_compute; reflexivity |].
  split; [vm_compute; reflexivity |].
  split; [apply floats_differ; vm_compute; reflexivity |].
  split; [vm_compute; reflexivity |].
  split; vm_compute; reflexivity.
Qed.

(** C10. A response that is no 429 or 402 with a retry-after, whose
    remaining-calls header reads as the integer zero and whose reset header
    is an integer, makes [handle_rate_limit] divide by zero: it raises
    [ZeroDivisionError] and returns no wait. *)
Theorem zero_remaining_divides_by_zero (self : limiter) (r : response) (now : float)
        (calls reset : string) (time_until_reset : Z) :
  rate_limited r && has_retry_after r = false ->
  headers r !! "x-gate-rate-limit-calls" = Some calls -> py_int calls = Ok 0 ->
  headers r !! "x-gate-rate-limit-reset" = Some reset -> py_int reset = Ok time_until_reset ->
  handle_rate_limit self r now = Raise ZeroDivisionError.
Proof.
  intros Hg Hc Hn Hr Hm. unfold handle_rate_limit.
  rewrite Hg, (read_limits_numeric _ _ _ _ _ Hc Hn Hr Hm). reflexivity.
Qed.

Lemma zero_remaining_sample :
  handle_rate_limit new_limiter (Sample.reply 200 (Sample.limits "0" "100") (Undecodable ""))
    0%float
  = Raise ZeroDivisionError.
Proof.
  apply (zero_remaining_divides_by_zero _ _ _ "0" "100" 100); vm_compute; reflexivity.
Defined.

End RateLimiter.

(** ** Properties of the extraction functions *)

Section ExtractionFacts.
Context `{Printer}.


Lemma traverse_length {A B : Type} (f : A -> result B) (xs : list A) (ys : list B) :
  traverse f xs = Ok ys -> length ys = length xs.
Proof.
  revert ys. induction xs as [| x xs IH]; intros ys; cbn.
  - intros [= <-]. reflexivity.
  - destruct (f x) as [y | e]; cbn; [| discriminate].
    destruct (traverse f xs) as [ys' | e]; cbn; [| discriminate].
    intros [= <-]. cbn. f_equal. apply IH. reflexivity.
Qed.




Lemma covered_text_encode (r : service_response) (a : annotation) :
  covered_text (encode r) (encode_annotation a) = Ok (text_of r a).
Proof. reflexivity. Qed.




Lemma unescape_amp (s : string) :
  unescape_lt_amp ("&amp;" +:+ s) = "&" +:+ unescape_lt_amp s.
Proof. reflexivity. Qed.

Lemma unescape_lt (s : string) :
  unescape_lt_amp ("&lt;" +:+ s) = "<" +:+ unescape_lt_amp s.
Proof. reflexivity. Qed.

Lemma unescape_without_entity (s : string) :
  is_substring "&amp;" s = false -> is_substring "&lt;" s = false ->
  unescape_lt_amp s = s.
Proof.
  unfold unescape_lt_amp. induction s as [| c s IH]; [reflexivity |].
  intros Ha Hl. cbn [is_substring] in Ha, Hl.
  apply orb_false_elim in Ha as [Ha Ha']. apply orb_false_elim in Hl as [Hl Hl'].
  assert (lt_amp_re (String c s) = None) as Hnone
    by (unfold lt_amp_re; rewrite Ha, Hl; reflexivity).
  cbn [scan]. rewrite Hnone. cbn [render].
  rewrite (IH Ha' Hl'). reflexivity.
Qed.

(** C7. The text under an annotation has [&amp;] turned into [&] and
    [&lt;] into [<], once and from left to right, and nothing else changed:
    the sample text [A &amp; B &lt;tag&gt;] comes out as [A & B <tag&gt;],
    through the plain column and through the [text] feature of a template
    alike, and a text without these two entities comes out as it is. *)
Theorem only_amp_and_lt_are_unescaped :
  text_under "Tag" ";" (encode Sample.tagged) = Ok "A & B <tag&gt;"
  /\ response_to_column "Tag" "text" ";" (encode Sample.tagged) = Ok "A & B <tag&gt;"
  /\ (forall s, unescape_lt_amp ("&amp;" +:+ s) = "&" +:+ unescape_lt_amp s)
  /\ (forall s, unescape_lt_amp ("&lt;" +:+ s) = "<" +:+ unescape_lt_amp s)
  /\ (forall s, is_substring "&amp;" s = false -> is_substring "&lt;" s = false ->
                unescape_lt_amp s = s).
Proof.
  split; [vm_compute; reflexivity |].
  split; [vm_compute; reflexivity |].
  split; [exact unescape_amp |].
  split; [exact unescape_lt | exact unescape_without_entity].
Qed.

(** The sample text does not come out with [&gt;] turned into [>]. *)
Lemma gt_is_not_unescaped :
  text_under "Tag" ";" (encode Sample.tagged) <> Ok "A & B <tag>".
Proof. vm_compute. discriminate. Qed.






End ExtractionFacts.

Lemma other_entities_stay :
  unescape_lt_amp "x &gt; y &quot; &#38; z" = "x &gt; y &quot; &#38; z".
Proof.
  destruct (@only_amp_and_lt_are_unescaped Sample.printer) as (_ & _ & _ & _ & Hsame).
  apply Hsame; vm_compute; reflexivity.
Defined.


(** ** Properties of the template evaluator *)

Section TemplateFacts.
Context `{Printer}.



End TemplateFacts.



(** ** Properties of the row loop *)

Section RowFacts.
Context `{Printer}.
Variable self : processor.

Lemma error_status_shape (err_json : json) (status : list string) :
  error_status err_json = Ok status ->
  (length status <= 1)%nat /\ Forall (fun s => starts_with "Error: " s = true) status.
Proof.
  unfold error_status. destruct (truthy err_json).
  - destruct (contains (Some "message") err_json) as [[|] | e]; cbn; [| | discriminate].
    + destruct (getitem err_json "message") as [m | e]; cbn; [| discriminate].
      intros [= <-]. split; [cbn; lia | repeat constructor].
    + intros [= <-]. split; [cbn; lia | repeat constructor].
  - intros [= <-]. split; [cbn; lia | constructor].
Qed.


Lemma error_status_message (m : string) :
  error_status (message_of m) = Ok ["Error: " +:+ m].
Proof. reflexivity. Qed.




Lemma rate_limited_not_ok (r : response) :
  rate_limited r = true -> (status_code r =? 200) = false.
Proof.
  unfold rate_limited. intros Hr. apply Z.eqb_neq. intros H200. rewrite H200 in Hr.
  discriminate.
Qed.


(** One unfolding of the loop, when the copied fields exist and the sleep
    is accepted. *)
Lemma attempts_step (row : list string) (columns : list Z) (l : locals)
      (a : attempt) (rest : list attempt) (copied : list string) :
  traverse (list_getitem row) columns = Ok copied ->
  sleep (wait_before_next_call l) = Ok tt ->
  attempts self row columns l (a :: rest)
  = match on_attempt self copied l a with
    | Again l' => attempts self row columns l' rest
    | Stop e l' => Halted e l' rest
    | Break results' err_json l' =>
        match after_loop results' err_json l' a with
        | (l'', Raise e) => Halted (Uncaught e) l'' rest
        | (l'', Ok record) => Written record l'' rest
        end
    end.
Proof. intros Hc Hs. cbn [attempts]. rewrite Hc, Hs. reflexivity. Qed.

(** What one pass through the loop body leaves in [results] and
    [err_json] when it breaks out. *)
Lemma on_attempt_break (results results' : list string) (err_json : json)
      (l l' : locals) (a : attempt) :
  on_attempt self results l a = Break results' err_json l' ->
  (results' = results)
  \/ (err_json = JNull /\
      exists derived, results' = (results ++ "Success" :: derived)%list /\
                      length derived = length (output_functions self)).
Proof.
  unfold on_attempt. destruct (answered a) as [r | m]; [| intros [= <- _ _]; left; reflexivity].
  unfold on_response. destruct (status_code r =? 200).
  - destruct (json_body r) as [j | m]; [| intros [= <- _ _]; left; reflexivity].
    destruct (is_annotated j) as [[|] | e]; try discriminate.
    destruct (traverse _ (output_functions self)) as [derived | e] eqn:E; [| discriminate].
    intros [= <- <- _]. right. split; [reflexivity |].
    exists derived. split; [reflexivity | exact (traverse_length _ _ _ E)].
  - destruct (rate_limited r).
    + destruct (5 <? _); [discriminate |].
      destruct (handle_rate_limit _ _ _) as [[w lim] | e]; discriminate.
    + destruct (json_body r); intros [= <- _ _]; left; reflexivity.
Qed.



Lemma outcome_shape (a : attempt) (tail : list string) :
  outcome self a tail ->
  (exists derived, tail = "Success" :: derived
                   /\ length derived = length (output_functions self))
  \/ ((length tail <= 1)%nat /\ Forall (fun s => starts_with "Error: " s = true) tail).
Proof.
  intros [r j derived _ _ _ _ _ Hd | | | | | |].
  - left. exists derived. split; [reflexivity | exact (traverse_length _ _ _ Hd)].
  - right. split; [cbn; lia | repeat constructor].
  - right. split; [cbn; lia | repeat constructor].
  - right. split; [cbn; lia | repeat constructor].
  - right. split; [cbn; lia | repeat constructor].
  - right. split; [cbn; lia | repeat constructor].
  - right. split; [cbn; lia | constructor].
Qed.

Lemma after_loop_written (results : list string) (err_json : json) (l l' : locals)
      (a : attempt) (record : list string) :
  after_loop results err_json l a = (l', Ok record) ->
  exists r wait lim status,
    last_response l = Some r
    /\ handle_rate_limit (self_limiter l) r (clock a) = Ok (wait, lim)
    /\ l' = limited l lim wait
    /\ error_status err_json = Ok status
    /\ record = (results ++ status)%list.
Proof.
  unfold after_loop. destruct (last_response l) as [r |]; [| discriminate].
  destruct (handle_rate_limit _ _ _) as [[w lim] | e] eqn:Hcall; [| discriminate].
  destruct (error_status err_json) as [status | e]; cbn; [| discriminate].
  intros [= <- <-]. exists r, w, lim, status. auto 10.
Qed.

Lemma after_loop_record (results : list string) (err_json : json) (l l' : locals)
      (a : attempt) (record : list string) :
  after_loop results err_json l a = (l', Ok record) ->
  exists status, error_status err_json = Ok status /\ record = (results ++ status)%list.
Proof.
  intros Hafter.
  destruct (after_loop_written _ _ _ _ _ _ Hafter) as (r & w & lim & status & _ & _ & _ & Hs & Hr).
  eauto.
Qed.

Lemma attempts_record (row : list string) (columns : list Z) (env : list attempt) :
  forall (l l' : locals) (record : list string) (rest : list attempt),
    attempts self row columns l env = Written record l' rest ->
    record_of self columns row record.
Proof.
  induction env as [| a env IH]; intros l l' record rest; cbn.
  - destruct (traverse _ columns); [| discriminate]. destruct (sleep _); discriminate.
  - destruct (traverse (list_getitem row) columns) as [results |] eqn:Hres; [| discriminate].
    destruct (sleep _); [| discriminate].
    destruct (on_attempt self results l a) as [l1 | results' err l1 | e l1] eqn:Hstep;
      [apply IH | | discriminate].
    destruct (after_loop results' err l1 a) as [l2 [rec |]] eqn:Hafter; [| discriminate].
    intros [= <- _ _]. exists results. split; [exact Hres |].
    destruct (after_loop_record _ _ _ _ _ _ Hafter) as (status & Hstatus & ->).
    destruct (on_attempt_break _ _ _ _ _ _ Hstep) as [-> | (-> & derived & -> & Hlen)].
    + right. exists status. destruct (error_status_shape _ _ Hstatus). auto.
    + left. exists derived. cbn in Hstatus. injection Hstatus as <-.
      rewrite app_nil_r. auto.
Qed.


Lemma on_attempt_stop (results : list string) (l l' : locals) (a : attempt) (e : ending) :
  on_attempt self results l a = Stop e l' -> e <> Finished /\ e <> Pending.
Proof.
  unfold on_attempt, on_response. destruct (answered a) as [r |]; [| discriminate].
  destruct (status_code r =? 200).
  - destruct (json_body r); [| discriminate].
    destruct (is_annotated _) as [[|] |]; try discriminate.
    + destruct (traverse _ _); [discriminate |]. intros [= <- _]. split; discriminate.
    + intros [= <- _]. split; discriminate.
  - destruct (rate_limited r); [| destruct (json_body r); discriminate].
    destruct (5 <? _); [intros [= <- _]; split; discriminate |].
    destruct (handle_rate_limit _ _ _) as [[? ?] |]; [discriminate |].
    intros [= <- _]. split; discriminate.
Qed.

(** A stop never counts as finished, a run that waits has used up every
    answer, and the answers left are a tail of those on offer. *)
Lemma attempts_halted (row : list string) (columns : list Z) (env : list attempt) :
  forall (l l' : locals) (e : ending) (rest : list attempt),
    attempts self row columns l env = Halted e l' rest ->
    e <> Finished /\ (e = Pending -> rest = []).
Proof.
  induction env as [| a env IH]; intros l l' e rest; cbn.
  - destruct (traverse _ columns); [| intros [= <- _ _]; split; discriminate].
    destruct (sleep _); intros [= <- _ <-]; split; (discriminate || reflexivity).
  - destruct (traverse _ columns) as [results |]; [| intros [= <- _ _]; split; discriminate].
    destruct (sleep _); [| intros [= <- _ _]; split; discriminate].
    destruct (on_attempt self results l a) as [l1 | results' err l1 | e1 l1] eqn:Hstep.
    + apply IH.
    + destruct (after_loop _ _ _ _) as [l2 [? |]]; [discriminate |].
      intros [= <- _ _]. split; discriminate.
    + intros [= <- _ _]. destruct (on_attempt_stop _ _ _ _ _ Hstep) as [Hf Hp].
      split; [exact Hf | intros Hpend; destruct (Hp Hpend)].
Qed.


Lemma rows_loop_records (text_index : Z) (columns : list Z) (rows : list (list string)) :
  forall (l : locals) (env : list attempt),
    let rep := rows_loop self text_index columns rows l env in
    (length (written rep) <= length rows)%nat
    /\ (ended rep = Finished <-> length (written rep) = length rows)
    /\ Forall2 (record_of self columns) (firstn (length (written rep)) rows) (written rep).
Proof.
  induction rows as [| row rows IH]; intros l env; cbn.
  - split; [lia |]. split; [tauto | constructor].
  - unfold process_row. destruct (list_getitem row text_index); cbn.
    + destruct (attempts self row columns l env) as [record l' env' | e l' env'] eqn:E; cbn.
      * destruct (IH l' env') as (Hle & Hfin & Hall).
        split; [lia |]. split; [rewrite Hfin; lia |].
        constructor; [exact (attempts_record _ _ _ _ _ _ _ E) | exact Hall].
      * split; [lia |]. split; [| constructor].
        split; [| discriminate]. intros ->.
        exfalso. exact (proj1 (attempts_halted _ _ _ _ _ _ _ E) eq_refl).
    + split; [lia |]. split; [| constructor]. split; discriminate.
Qed.



Lemma hits_app (xs ys : list attempt) : hits (xs ++ ys) = hits xs + hits ys.
Proof. induction xs as [| x xs IH]; cbn; [reflexivity | rewrite IH; lia]. Qed.

(** The counter of rate-limit answers after one pass through the loop
    body, and the only way to [sys.exit]. *)
Lemma on_attempt_failures (results : list string) (l : locals) (a : attempt) :
  rate_limit_failures l <= 5 ->
  match on_attempt self results l a with
  | Again l' | Break _ _ l' =>
      rate_limit_failures l' = rate_limit_failures l + hits [a]
      /\ rate_limit_failures l' <= 5
  | Stop e l' =>
      rate_limit_failures l' = rate_limit_failures l + hits [a]
      /\ ((e = Exit 1 /\ is_hit a = true /\ rate_limit_failures l = 5)
          \/ ((forall c, e <> Exit c) /\ rate_limit_failures l + hits [a] <= 5))
  end.
Proof.
  intros Hle. unfold on_attempt, is_hit. cbn [hits]. unfold is_hit.
  destruct (answered a) as [r | m]; [| cbn; lia].
  unfold on_response.
  destruct (status_code r =? 200) eqn:E200.
  - assert (rate_limited r = false) as ->
      by (unfold rate_limited; apply Z.eqb_eq in E200; rewrite E200; reflexivity).
    destruct (json_body r); [| cbn; lia].
    destruct (is_annotated _) as [[|] |].
    + destruct (traverse _ _); [cbn; lia |]. cbn. split; [lia |].
      right. split; [discriminate | lia].
    + cbn. lia.
    + cbn. split; [lia |]. right. split; [discriminate | lia].
  - destruct (rate_limited r).
    + cbn [rate_limit_failures with_response started_at].
      destruct (5 <? rate_limit_failures l + 1) eqn:E5.
      * cbn. split; [lia |]. left. apply Z.ltb_lt in E5. repeat split. lia.
      * apply Z.ltb_ge in E5.
        destruct (handle_rate_limit _ _ _) as [[w lim'] |]; [cbn; lia |].
        cbn. split; [lia |]. right. split; [discriminate | lia].
    + destruct (json_body r); cbn; lia.
Qed.

Lemma after_loop_failures (results : list string) (err_json : json) (l : locals)
      (a : attempt) :
  rate_limit_failures (fst (after_loop results err_json l a)) = rate_limit_failures l.
Proof.
  unfold after_loop. destruct (last_response l) as [r |]; [| reflexivity].
  destruct (handle_rate_limit _ _ _) as [[w lim'] | e]; reflexivity.
Qed.

Lemma attempts_hits (row : list string) (columns : list Z) (env : list attempt) :
  forall l : locals,
    rate_limit_failures l <= 5 ->
    match attempts self row columns l env with
    | Written _ l' rest =>
        exists used, env = (used ++ rest)%list
                     /\ rate_limit_failures l' = rate_limit_failures l + hits used
                     /\ rate_limit_failures l' <= 5
    | Halted e l' rest =>
        exists used, env = (used ++ rest)%list
                     /\ rate_limit_failures l' = rate_limit_failures l + hits used
                     /\ cap_respected (rate_limit_failures l) e used
    end.
Proof.
  induction env as [| a env IH]; intros l Hle; cbn.
  - destruct (traverse _ columns);
      [destruct (sleep _) |]; exists []; (split; [reflexivity |]);
      (split; [cbn; lia |]); right; (split; [discriminate | cbn; lia]).
  - destruct (traverse _ columns) as [results |];
      [| exists []; split; [reflexivity |]; split; [cbn; lia |];
         right; split; [discriminate | cbn; lia]].
    destruct (sleep _);
      [| exists []; split; [reflexivity |]; split; [cbn; lia |];
         right; split; [discriminate | cbn; lia]].
    pose proof (on_attempt_failures results l a Hle) as Hstep.
    destruct (on_attempt self results l a) as [l1 | results' err l1 | e l1].
    + destruct Hstep as [Hf Hle1]. specialize (IH l1 Hle1).
      destruct (attempts self row columns l1 env) as [record l' rest | e l' rest].
      * destruct IH as (used & -> & Hf' & Hle'). exists (a :: used).
        split; [reflexivity |]. cbn [hits] in *. split; lia.
      * destruct IH as (used & -> & Hf' & Hcap). exists (a :: used).
        split; [reflexivity |]. cbn [hits] in Hf. split; [cbn [hits]; lia |].
        destruct Hcap as [(-> & Hsix & before & z & -> & Hz) | [Hne Hfive]].
        -- left. split; [reflexivity |]. cbn [hits]. split; [lia |].
           exists (a :: before), z. split; [reflexivity | exact Hz].
        -- right. split; [exact Hne | cbn [hits]; lia].
    + destruct Hstep as [Hf Hle1].
      pose proof (after_loop_failures results' err l1 a) as Hafter.
      destruct (after_loop results' err l1 a) as [l2 [record |]]; cbn [fst] in Hafter.
      * exists [a]. split; [reflexivity |]. rewrite Hafter. split; [exact Hf | exact Hle1].
      * exists [a]. split; [reflexivity |]. rewrite Hafter. split; [exact Hf |].
        right. split; [discriminate | lia].
    + exists [a]. split; [reflexivity |]. destruct Hstep as [Hf Hstep].
      split; [exact Hf |].
      destruct Hstep as [(-> & Hhit & Hfive) | [Hne Hfive]].
      * left. split; [reflexivity |]. cbn [hits]. rewrite Hhit. split; [lia |].
        exists [], a. split; [reflexivity | exact Hhit].
      * right. split; [exact Hne | exact Hfive].
Qed.

Lemma rows_loop_hits (text_index : Z) (columns : list Z) (rows : list (list string)) :
  forall (l : locals) (env : list attempt),
    rate_limit_failures l <= 5 ->
    let rep := rows_loop self text_index columns rows l env in
    exists used, env = (used ++ unused rep)%list
                 /\ rate_limit_failures (final rep) = rate_limit_failures l + hits used
                 /\ cap_respected (rate_limit_failures l) (ended rep) used.
Proof.
  induction rows as [| row rows IH]; intros l env Hle; cbn.
  - exists []. split; [reflexivity |]. split; [cbn; lia |].
    right. split; [discriminate | cbn; lia].
  - unfold process_row. destruct (list_getitem row text_index); cbn;
      [| exists []; split; [reflexivity |]; split; [cbn; lia |];
         right; split; [discriminate | cbn; lia]].
    pose proof (attempts_hits row columns env l Hle) as Hrow.
    destruct (attempts self row columns l env) as [record l' rest | e l' rest]; cbn.
    + destruct Hrow as (used & -> & Hf & Hle').
      destruct (IH l' rest Hle') as (used' & Hrest & Hf' & Hcap).
      exists (used ++ used')%list. split; [rewrite <- app_assoc, <- Hrest; reflexivity |].
      rewrite hits_app. split; [lia |].
      rewrite Hf in Hcap.
      destruct Hcap as [(He & Hsix & before & z & -> & Hz) | [Hne Hfive]].
      * left. split; [exact He |]. split; [rewrite hits_app; lia |].
        exists (used ++ before)%list, z. split; [rewrite app_assoc; reflexivity | exact Hz].
      * right. split; [exact Hne | rewrite hits_app; lia].
    + exact Hrow.
Qed.

Lemma rows_loop_pending (text_index : Z) (columns : list Z) (rows : list (list string)) :
  forall (l : locals) (env : list attempt),
    let rep := rows_loop self text_index columns rows l env in
    ended rep = Pending -> unused rep = [].
Proof.
  induction rows as [| row rows IH]; intros l env; cbn; [discriminate |].
  unfold process_row. destruct (list_getitem row text_index); cbn; [| discriminate].
  destruct (attempts self row columns l env) as [record l' rest | e l' rest] eqn:E; cbn.
  - apply IH.
  - exact (proj2 (attempts_halted _ _ _ _ _ _ _ E)).
Qed.

(** C2. The counter of answers with status 429 or 402 is one for the
    whole run: after any run it is the number of such answers among the
    calls made, in whatever rows. At most six calls are answered so; the run
    ends with [sys.exit(1)] exactly when there are six, the sixth is then
    the last call made, and no other exit code occurs; a run that still
    waits for an answer has used up all of them. At such an answer the work
    on a row goes as follows: with five counted before, the run exits; with
    fewer, the limiter is asked for the wait, and either the call is made
    again after it, or the exception of the limiter ends the run. *)
Theorem exit_at_sixth_rate_limit :
  (forall (lim : limiter) (input : list (list string)) (env : list attempt),
     let rep := run self lim input env in
     exists used,
       env = (used ++ unused rep)%list
       /\ rate_limit_failures (final rep) = hits used
       /\ hits used <= 6
       /\ (ended rep = Exit 1 <-> hits used = 6)
       /\ (forall c, ended rep = Exit c -> c = 1)
       /\ (hits used = 6 -> exists before a, used = (before ++ [a])%list /\ is_hit a = true)
       /\ (ended rep = Pending -> unused rep = []))
  /\ (forall (row : list string) (columns : list Z) (copied : list string) (l : locals)
             (a : attempt) (r : response) (rest : list attempt),
        traverse (list_getitem row) columns = Ok copied ->
        sleep (wait_before_next_call l) = Ok tt ->
        answered a = Responded r ->
        status_code r = 429 \/ status_code r = 402 ->
        let lim0 := {| prev_rate_limit_remaining := prev_rate_limit_remaining (self_limiter l);
                       request_start_time := Some (started a) |} in
        let called lim wait := {| self_limiter := lim;
                                  rate_limit_failures := rate_limit_failures l + 1;
                                  wait_before_next_call := wait;
                                  last_response := Some r |} in
        attempts self row columns l (a :: rest)
        = if 5 <=? rate_limit_failures l
          then Halted (Exit 1) (called lim0 (wait_before_next_call l)) rest
          else match handle_rate_limit lim0 r (clock a) with
               | Ok (wait, lim) => attempts self row columns (called lim wait) rest
               | Raise e =>
                   Halted (Uncaught e)
                          (called (limiter_after lim0 r) (wait_before_next_call l)) rest
               end).
Proof.
  split.
  - intros lim input env rep. subst rep. unfold run.
    destruct (columns_of self input) as [[[[text_index columns] names] rows] | e]; cbn.
    + destruct (rows_loop_hits text_index columns rows (new_locals lim) env)
        as (used & Henv & Hf & Hcap); [cbn; lia |].
      pose proof (rows_loop_pending text_index columns rows (new_locals lim) env) as Hpend.
      exists used. split; [exact Henv |]. cbn in Hcap, Hf, Hpend.
      split; [exact Hf |].
      destruct Hcap as [(He & Hsix & Hlast) | [Hne Hfive]].
      * rewrite He. split; [lia |]. split; [split; [lia | reflexivity] |].
        split; [intros c [= <-]; reflexivity |]. split; [intros _; exact Hlast | discriminate].
      * split; [lia |]. split; [split; [intros He; destruct (Hne 1 He) | lia] |].
        split; [intros c He; destruct (Hne c He) |]. split; [lia | exact Hpend].
    + exists []. split; [reflexivity |]. cbn. split; [reflexivity |]. split; [lia |].
      split; [split; [discriminate | lia] |]. split; [discriminate |].
      split; [lia | discriminate].
  - intros row columns copied l a r rest Hc Hs Ha Hstatus lim0 called.
    rewrite (attempts_step _ _ _ _ _ _ Hc Hs).
    assert (rate_limited r = true) as Hrl
      by (unfold rate_limited; destruct Hstatus as [-> | ->]; reflexivity).
    unfold on_attempt, on_response. rewrite Ha, (rate_limited_not_ok _ Hrl), Hrl.
    cbn [rate_limit_failures with_response started_at self_limiter last_response
         wait_before_next_call].
    destruct (5 <=? rate_limit_failures l) eqn:E5.
    + replace (5 <? rate_limit_failures l + 1) with true
        by (symmetry; apply Z.ltb_lt; apply Z.leb_le in E5; lia).
      reflexivity.
    + replace (5 <? rate_limit_failures l + 1) with false
        by (symmetry; apply Z.ltb_ge; apply Z.leb_gt in E5; lia).
      fold lim0. destruct (handle_rate_limit lim0 r (clock a)) as [[w lim'] | e]; reflexivity.
Qed.

Lemma latest_snoc (used : list attempt) (a : attempt) :
  latest (used ++ [a])
  = match answered a with
    | Responded r => Some r
    | RequestException _ => latest used
    end.
Proof.
  induction used as [| a0 used IH]; cbn.
  - destruct (answered a); reflexivity.
  - rewrite IH. destruct (answered a); reflexivity.
Qed.






End RowFacts.


(** With five answers counted, one more with status 429 makes the run
    exit; the answer that follows is not asked for. *)
Lemma sixth_answer_exits :
  @attempts Sample.printer Sample.counting ["hello"] [0] Sample.five_counted
    [Sample.busy; Sample.success]
  = Halted (Exit 1)
           {| self_limiter := {| prev_rate_limit_remaining := -1;
                                 request_start_time := Some 1%float |};
              rate_limit_failures := 6;
              wait_before_next_call := 0%float;
              last_response := Some (Sample.reply 429 (("retry-after", "0")
                                                         :: Sample.limits "0" "100")
                                                  (Undecodable EmptyString)) |}
           [Sample.success].
Proof.
  exact (proj2 (@exit_at_sixth_rate_limit Sample.printer Sample.counting)
               ["hello"] [0] ["hello"] Sample.five_counted Sample.busy _ [Sample.success]
               eq_refl eq_refl eq_refl (or_introl eq_refl)).
Defined.

(** One answer with status 429 whose retry-after is an HTTP date ends the
    run with an uncaught [ValueError]: fewer than six such answers, no
    record for the row, and the rows and answers that follow are left. *)
Lemma one_rate_limit_answer_ends_the_run :
  let a := Sample.at_times 1 2
             (Responded (Sample.reply 429 [("retry-after", "Wed, 21 Oct 2015 07:28:00 GMT")]
                                      (Undecodable EmptyString))) in
  let rep := @run Sample.printer Sample.counting new_limiter [["hello"]; ["world"]]
                  [a; Sample.success; Sample.success] in
  hits [a] = 1
  /\ ended rep = Uncaught ValueError
  /\ written rep = [["Column 1"; "status"; "Person #count"]]
  /\ unused rep = [Sample.success; Sample.success].
Proof. cbv zeta. repeat split; vm_compute; reflexivity. Qed.



(** Six answers with status 429 end the run; the two that follow are not
    asked for. *)
Example six_busy_answers :
  let rep := @run Sample.printer Sample.counting new_limiter [["hello"]]
                  (repeat Sample.busy 8) in
  ended rep = Exit 1 /\ length (unused rep) = 2%nat /\ length (written rep) = 1%nat.
Proof. vm_compute. repeat split. Qed.

(** Five such answers and then a success: the run goes on and finishes. *)
Example five_busy_answers :
  let rep := @run Sample.printer Sample.counting new_limiter [["hello"]]
                  (repeat Sample.busy 5 ++ [Sample.success]) in
  ended rep = Finished
  /\ written rep = [["Column 1"; "status"; "Person #count"]; ["hello"; "Success"; "2"]].
Proof. vm_compute. repeat split. Qed.


(** ** Further properties of the rate limiter *)

Section LimiterFacts.

Lemma py_float_raises_value_error (s : string) (e : exn) :
  py_float s = Raise e -> e = ValueError.
Proof.
  unfold py_float. destruct (sign _) as [neg t].
  destruct (_ || _); [discriminate |].
  destruct (String.eqb _ "nan"); [discriminate |].
  destruct (digits t) as [[iv il] t1].
  destruct (match t1 with String c t1' => _ | EmptyString => _ end) as [[fv fl] t2].
  destruct (il + fl =? 0); [intros [= <-]; reflexivity |].
  destruct (exponent t2) as [[ex [| c rest]] |]; intros Heq; congruence.
Qed.

Lemma int_true_div_raises (a b : Z) (e : exn) :
  int_true_div a b = Raise e -> e = ZeroDivisionError \/ e = OverflowError.
Proof.
  unfold int_true_div. destruct (b =? 0); [intros [= <-]; left; reflexivity |].
  destruct (a =? 0); [discriminate |].
  destruct (is_inf_sf _); [intros [= <-]; right; reflexivity | discriminate].
Qed.

Lemma float_of_int_raises (n : Z) (e : exn) :
  float_of_int n = Raise e -> e = OverflowError.
Proof.
  unfold float_of_int. destruct (is_inf_sf _); [intros [= <-]; reflexivity | discriminate].
Qed.

Lemma read_limits_cases (r : response) :
  read_limits r = Raise KeyError \/ read_limits r = Raise ValueError
  \/ exists calls reset n m,
       headers r !! "x-gate-rate-limit-calls" = Some calls /\ py_int calls = Ok n
       /\ headers r !! "x-gate-rate-limit-reset" = Some reset /\ py_int reset = Ok m
       /\ read_limits r = Ok (n, m).
Proof.
  unfold read_limits, header.
  destruct (headers r !! "x-gate-rate-limit-calls") as [calls |] eqn:Hc; cbn; [| auto].
  destruct (py_int calls) as [n | e] eqn:Hn; cbn;
    [| rewrite (py_int_raises_value_error _ _ Hn); auto].
  destruct (headers r !! "x-gate-rate-limit-reset") as [reset |] eqn:Hr; cbn; [| auto].
  destruct (py_int reset) as [m | e] eqn:Hm; cbn;
    [| rewrite (py_int_raises_value_error _ _ Hm); auto].
  right. right. exists calls, reset, n, m. auto.
Qed.

(** The attributes that [handle_rate_limit] returns are those it leaves. *)
Lemma limiter_after_returned (self self' : limiter) (r : response) (now wait : float) :
  handle_rate_limit self r now = Ok (wait, self') -> limiter_after self r = self'.
Proof.
  unfold handle_rate_limit, limiter_after. destruct (rate_limited r && has_retry_after r).
  - destruct (header r "retry-after"); cbn; [| discriminate].
    destruct (py_float _); cbn; [| discriminate]. intros [= _ <-]. reflexivity.
  - destruct (read_limits r) as [[n m] | e].
    + destruct (int_true_div m n); cbn; [| discriminate].
      destruct (float_of_int _); cbn; [| discriminate]. intros [= _ <-]. reflexivity.
    + destruct e; try discriminate. intros [= _ <-]. reflexivity.
Qed.

(** X1. [handle_rate_limit] never touches the recorded start time, and the
    previous remaining count either stays or becomes the integer that the
    remaining-calls header of this response holds. *)
Theorem limiter_state_frame (self self' : limiter) (r : response) (now wait : float) :
  handle_rate_limit self r now = Ok (wait, self') ->
  request_start_time self' = request_start_time self
  /\ (prev_rate_limit_remaining self' = prev_rate_limit_remaining self
      \/ exists calls,
           headers r !! "x-gate-rate-limit-calls" = Some calls
           /\ py_int calls = Ok (prev_rate_limit_remaining self')).
Proof.
  unfold handle_rate_limit. destruct (rate_limited r && has_retry_after r).
  - destruct (header r "retry-after") as [v |]; cbn; [| discriminate].
    destruct (py_float v); cbn; [| discriminate].
    intros [= _ <-]. auto.
  - destruct (read_limits_cases r) as [-> | [-> | (calls & reset & n & m & Hc & Hn & _ & _ & ->)]];
      [discriminate | intros [= _ <-]; auto |].
    destruct (int_true_div m n); cbn; [| discriminate].
    destruct (float_of_int _); cbn; [| discriminate].
    intros [= _ <-]. cbn. split; [reflexivity |]. right. eauto.
Qed.

Lemma limiter_state_frame_sample :
  request_start_time {| prev_rate_limit_remaining := 10; request_start_time := Some 3%float |}
  = request_start_time {| prev_rate_limit_remaining := 4; request_start_time := Some 3%float |}
  /\ (10 = 4 \/ exists calls,
        headers (Sample.reply 429 (Sample.limits "10" "100") (Undecodable EmptyString))
          !! "x-gate-rate-limit-calls" = Some calls
        /\ py_int calls = Ok 10).
Proof.
  apply (limiter_state_frame
           {| prev_rate_limit_remaining := 4; request_start_time := Some 3%float |}
           {| prev_rate_limit_remaining := 10; request_start_time := Some 3%float |}
           (Sample.reply 429 (Sample.limits "10" "100") (Undecodable EmptyString))
           5%float 61%float).
  vm_compute. reflexivity.
Defined.

(** X2. The exceptions that escape [handle_rate_limit]: with a retry-after
    on a 429 or 402 only [ValueError] (the header is no float); otherwise
    only [KeyError] (a limit header is absent), [ZeroDivisionError] or
    [OverflowError]. A limit header that is no integer never raises. *)
Theorem limiter_exceptions (self : limiter) (r : response) (now : float) (e : exn) :
  handle_rate_limit self r now = Raise e ->
  if rate_limited r && has_retry_after r then e = ValueError
  else e = KeyError \/ e = ZeroDivisionError \/ e = OverflowError.
Proof.
  unfold handle_rate_limit. destruct (rate_limited r && has_retry_after r) eqn:Hg.
  - apply andb_prop in Hg as [_ Hh]. unfold has_retry_after in Hh.
    apply bool_decide_eq_true_1 in Hh as [v Hv].
    rewrite (header_present _ _ _ Hv). cbn.
    destruct (py_float v) as [w | e'] eqn:Hw; cbn; [discriminate |].
    intros [= <-]. exact (py_float_raises_value_error _ _ Hw).
  - destruct (read_limits_cases r) as [-> | [-> | (calls & reset & n & m & _ & _ & _ & _ & ->)]];
      [intros [= <-]; auto | discriminate |].
    destruct (int_true_div m n) as [q | e'] eqn:Hq; cbn.
    + destruct (float_of_int _) as [u | e''] eqn:Hu; cbn; [discriminate |].
      intros [= <-]. right. right. exact (float_of_int_raises _ _ Hu).
    + intros [= <-]. right. exact (int_true_div_raises _ _ _ Hq).
Qed.

Lemma limiter_exceptions_sample :
  if rate_limited (Sample.reply 429 [("retry-after", "Wed, 21 Oct 2015 07:28:00 GMT")]
                                (Undecodable EmptyString))
     && has_retry_after (Sample.reply 429 [("retry-after", "Wed, 21 Oct 2015 07:28:00 GMT")]
                                      (Undecodable EmptyString))
  then ValueError = ValueError
  else ValueError = KeyError \/ ValueError = ZeroDivisionError \/ ValueError = OverflowError.
Proof.
  apply (limiter_exceptions new_limiter _ 0%float ValueError).
  vm_compute. reflexivity.
Defined.

Lemma positive_float (w : float) :
  (0 <? w)%float = true -> is_nan w = false /\ (w <? 0)%float = false.
Proof.
  unfold is_nan. rewrite !ltb_spec, FloatAxioms.eqb_spec.
  change (Prim2SF 0) with (S754_zero false).
  destruct (Prim2SF w) as [s | s | | s m e]; cbn; try discriminate.
  - destruct s; [discriminate |]. intros _. split; reflexivity.
  - destruct s; [discriminate |]. intros _. unfold SFeqb, SFltb. cbn.
    rewrite Z.compare_refl, Pos.compare_cont_refl. split; reflexivity.
Qed.

(** X3. Outside the retry-after case a wait that [handle_rate_limit]
    returns is never NaN and never negative. [time.sleep] takes it, or
    refuses it for its size only: with [OverflowError] beyond 2^63
    nanoseconds, and with [ValueError] at exactly 2^63 nanoseconds. *)
Theorem pacing_wait_is_accepted (self self' : limiter) (r : response) (now wait : float) :
  rate_limited r && has_retry_after r = false ->
  handle_rate_limit self r now = Ok (wait, self') ->
  is_nan wait = false
  /\ (wait <? 0)%float = false
  /\ (sleep wait = Ok tt
      \/ sleep wait = Raise OverflowError
      \/ ((wait * 1e9 =? 9223372036854775808)%float = true
          /\ sleep wait = Raise ValueError)).
Proof.
  intros Hg. unfold handle_rate_limit. rewrite Hg.
  assert (forall x,
             is_nan (clamp x) = false
             /\ (clamp x <? 0)%float = false
             /\ (sleep (clamp x) = Ok tt
                 \/ sleep (clamp x) = Raise OverflowError
                 \/ ((clamp x * 1e9 =? 9223372036854775808)%float = true
                     /\ sleep (clamp x) = Raise ValueError))) as Hclamp.
  { intros x. destruct (clamp_sign x) as [-> | Hpos];
      [split; [reflexivity |]; split; [reflexivity |]; left; vm_compute; reflexivity |].
    destruct (positive_float _ Hpos) as [Hnan Hneg].
    split; [exact Hnan |]. split; [exact Hneg |].
    unfold sleep. rewrite Hnan, Hneg.
    destruct (negb _); [right; left; reflexivity |]. cbn [orb].
    destruct (_ =? _)%float eqn:E; [right; right; split; reflexivity | left; reflexivity]. }
  destruct (read_limits_cases r) as [-> | [-> | (calls & reset & n & m & _ & _ & _ & _ & ->)]];
    [discriminate
    | intros [= <- _]; split; [reflexivity |]; split; [reflexivity |];
      left; vm_compute; reflexivity |].
  destruct (int_true_div m n); cbn; [| discriminate].
  destruct (float_of_int _); cbn; [| discriminate].
  intros [= <- _]. apply Hclamp.
Qed.

(** The wait of exactly 2^63 nanoseconds comes from 524288 remaining calls
    and 4605431693770016 seconds until the reset. *)
Lemma pacing_wait_is_accepted_sample :
  is_nan 9223372036.854776%float = false
  /\ (9223372036.854776 <? 0)%float = false
  /\ (sleep 9223372036.854776%float = Ok tt
      \/ sleep 9223372036.854776%float = Raise OverflowError
      \/ ((9223372036.854776 * 1e9 =? 9223372036854775808)%float = true
          /\ sleep 9223372036.854776%float = Raise ValueError)).
Proof.
  apply (pacing_wait_is_accepted
           new_limiter
           {| prev_rate_limit_remaining := 524288; request_start_time := None |}
           (Sample.reply 200 (Sample.limits "524288" "4605431693770016")
                         (Undecodable EmptyString))
           5%float 9223372036.854776%float); vm_compute; reflexivity.
Defined.

End LimiterFacts.

(** ** Edge cases of the row loop *)

Section RowEdges.
Context `{Printer}.
Variable self : processor.

(** X4. A 429 or 402 whose retry-after is no float (an HTTP date, say)
    ends the work on the row with an uncaught [ValueError], as long as it is
    not the sixth such answer. By then the start time of the call is set,
    the answer is counted and the local [response] holds it; the limiter's
    remaining count and the wait are as before. *)
Theorem retry_after_not_a_float_stops (row : list string) (columns : list Z) (l : locals)
        (a : attempt) (rest : list attempt) (copied : list string)
        (r : response) (v : string) (e : exn) :
  traverse (list_getitem row) columns = Ok copied ->
  sleep (wait_before_next_call l) = Ok tt ->
  answered a = Responded r ->
  rate_limited r = true ->
  headers r !! "retry-after" = Some v ->
  py_float v = Raise e ->
  rate_limit_failures l < 5 ->
  attempts self row columns l (a :: rest)
  = Halted (Uncaught ValueError)
           {| self_limiter :=
                {| prev_rate_limit_remaining := prev_rate_limit_remaining (self_limiter l);
                   request_start_time := Some (started a) |};
              rate_limit_failures := rate_limit_failures l + 1;
              wait_before_next_call := wait_before_next_call l;
              last_response := Some r |}
           rest.
Proof.
  intros Hc Hs Ha Hr Hv Hf Hlt. rewrite (attempts_step self _ _ _ _ _ _ Hc Hs).
  unfold on_attempt, on_response. rewrite Ha, (rate_limited_not_ok _ Hr), Hr.
  cbn [rate_limit_failures with_response started_at self_limiter].
  replace (5 <? rate_limit_failures l + 1) with false by (symmetry; apply Z.ltb_ge; lia).
  unfold handle_rate_limit, limiter_after, has_retry_after. rewrite Hr, Hv.
  rewrite bool_decide_eq_true_2 by (eexists; reflexivity). cbn [andb].
  rewrite (header_present _ _ _ Hv). cbn [mbind result_bind]. rewrite Hf.
  cbn [mbind result_bind].
  rewrite (py_float_raises_value_error _ _ Hf). reflexivity.
Qed.

(** X5. A 429 or 402 whose retry-after is a float that [time.sleep]
    refuses (negative, NaN, too large) ends the work on the row with the
    exception of the sleep, before the call is made again. *)
Theorem refused_retry_after_stops (row : list string) (columns : list Z) (l : locals)
        (a : attempt) (rest : list attempt) (copied : list string)
        (r : response) (v : string) (wait : float) (e : exn) :
  traverse (list_getitem row) columns = Ok copied ->
  sleep (wait_before_next_call l) = Ok tt ->
  answered a = Responded r ->
  rate_limited r = true ->
  headers r !! "retry-after" = Some v ->
  py_float v = Ok wait ->
  sleep wait = Raise e ->
  rate_limit_failures l < 5 ->
  exists l',
    attempts self row columns l (a :: rest) = Halted (Uncaught e) l' rest
    /\ rate_limit_failures l' = rate_limit_failures l + 1
    /\ wait_before_next_call l' = wait.
Proof.
  intros Hc Hs Ha Hr Hv Hf Hw Hlt. rewrite (attempts_step self _ _ _ _ _ _ Hc Hs).
  unfold on_attempt, on_response. rewrite Ha, (rate_limited_not_ok _ Hr), Hr.
  cbn [rate_limit_failures with_response started_at self_limiter last_response].
  replace (5 <? rate_limit_failures l + 1) with false by (symmetry; apply Z.ltb_ge; lia).
  unfold handle_rate_limit, has_retry_after. rewrite Hr, Hv.
  rewrite bool_decide_eq_true_2 by (eexists; reflexivity). cbn [andb].
  rewrite (header_present _ _ _ Hv). cbn [mbind result_bind]. rewrite Hf.
  cbn [mbind result_bind].
  eexists. split.
  - destruct rest as [| a' rest']; cbn [attempts]; rewrite Hc;
      cbn [wait_before_next_call]; rewrite Hw; reflexivity.
  - split; reflexivity.
Qed.

End RowEdges.

Lemma retry_after_not_a_float_sample :
  @attempts Sample.printer Sample.counting ["hello"] [0] (new_locals new_limiter)
    [Sample.at_times 1 2
       (Responded (Sample.reply 429 [("retry-after", "Wed, 21 Oct 2015 07:28:00 GMT")]
                                (Undecodable EmptyString)))]
  = Halted (Uncaught ValueError)
           {| self_limiter :=
                {| prev_rate_limit_remaining :=
                     prev_rate_limit_remaining (self_limiter (new_locals new_limiter));
                   request_start_time := Some 1%float |};
              rate_limit_failures := rate_limit_failures (new_locals new_limiter) + 1;
              wait_before_next_call := wait_before_next_call (new_locals new_limiter);
              last_response :=
                Some (Sample.reply 429 [("retry-after", "Wed, 21 Oct 2015 07:28:00 GMT")]
                                   (Undecodable EmptyString)) |}
           [].
Proof.
  eapply (@retry_after_not_a_float_stops Sample.printer); vm_compute; reflexivity.
Defined.

Lemma refused_retry_after_sample :
  exists l',
    @attempts Sample.printer Sample.counting ["hello"] [0] (new_locals new_limiter)
      [Sample.at_times 1 2
         (Responded (Sample.reply 429 [("retry-after", "-1")] (Undecodable EmptyString)));
       Sample.success]
    = Halted (Uncaught ValueError) l' [Sample.success]
    /\ rate_limit_failures l' = rate_limit_failures (new_locals new_limiter) + 1
    /\ wait_before_next_call l' = (-1)%float.
Proof.
  eapply (@refused_retry_after_stops Sample.printer); vm_compute; reflexivity.
Defined.

(** ** How rows end *)

Section RowOutcomes.
Context `{Printer}.
Variable self : processor.

Lemma first_sleep (lim : limiter) : sleep (wait_before_next_call (new_locals lim)) = Ok tt.
Proof. vm_compute. reflexivity. Qed.

(** X6. When the first call of a run fails with a [RequestException],
    [run] ends with an uncaught [UnboundLocalError]: the header is written,
    no record for the row, and no further call is made. *)
Theorem first_call_failure (lim : limiter) (input : list (list string))
        (a : attempt) (rest : list attempt)
        (text_index : Z) (columns : list Z) (names : list string)
        (row : list string) (rows : list (list string))
        (field : string) (copied : list string) (message : string) :
  columns_of self input = Ok (text_index, columns, names, row :: rows) ->
  list_getitem row text_index = Ok field ->
  traverse (list_getitem row) columns = Ok copied ->
  answered a = RequestException message ->
  let rep := run self lim input (a :: rest) in
  ended rep = Uncaught UnboundLocalError
  /\ written rep = [(names ++ "status" :: output_columns self)%list]
  /\ unused rep = rest.
Proof.
  intros Hcols Hfield Hcopied Ha rep. subst rep. unfold run. rewrite Hcols.
  cbn [rows_loop]. unfold process_row. rewrite Hfield.
  rewrite (attempts_step self _ _ _ _ _ _ Hcopied (first_sleep lim)).
  unfold on_attempt. rewrite Ha. cbn. repeat split.
Qed.

(** X7. A call that fails with a [RequestException] after some call has
    returned a response: the record is the copied fields and the status
    [Error: ] followed by the text of the exception, and the limiter is
    consulted again with that earlier response. *)
Theorem failure_after_a_response (row : list string) (columns : list Z) (l : locals)
        (a : attempt) (rest : list attempt) (copied : list string)
        (r : response) (message : string) (wait : float) (lim : limiter) :
  traverse (list_getitem row) columns = Ok copied ->
  sleep (wait_before_next_call l) = Ok tt ->
  last_response l = Some r ->
  answered a = RequestException message ->
  handle_rate_limit {| prev_rate_limit_remaining := prev_rate_limit_remaining (self_limiter l);
                       request_start_time := Some (started a) |} r (clock a)
  = Ok (wait, lim) ->
  attempts self row columns l (a :: rest)
  = Written (copied ++ ["Error: " +:+ message])%list
            {| self_limiter := lim;
               rate_limit_failures := rate_limit_failures l;
               wait_before_next_call := wait;
               last_response := Some r |}
            rest.
Proof.
  intros Hcopied Hsleep Hlast Ha Hcall.
  rewrite (attempts_step self _ _ _ _ _ _ Hcopied Hsleep).
  unfold on_attempt. rewrite Ha. unfold after_loop, limited.
  cbn [last_response started_at self_limiter rate_limit_failures]. rewrite Hlast, Hcall.
  rewrite error_status_message. reflexivity.
Qed.

(** X8. An answer with a status other than 200, 429 and 402 whose JSON
    payload is empty or otherwise false ([{}], [[]], [null], [0], an empty
    string): the record has the copied fields only, without any status. *)
Theorem falsy_error_payload (row : list string) (columns : list Z) (l : locals)
        (a : attempt) (rest : list attempt) (copied : list string)
        (r : response) (payload : json) (wait : float) (lim : limiter) :
  traverse (list_getitem row) columns = Ok copied ->
  sleep (wait_before_next_call l) = Ok tt ->
  answered a = Responded r ->
  (status_code r =? 200) = false ->
  rate_limited r = false ->
  json_body r = Decoded payload ->
  truthy payload = false ->
  handle_rate_limit {| prev_rate_limit_remaining := prev_rate_limit_remaining (self_limiter l);
                       request_start_time := Some (started a) |} r (clock a)
  = Ok (wait, lim) ->
  attempts self row columns l (a :: rest)
  = Written copied
            {| self_limiter := lim;
               rate_limit_failures := rate_limit_failures l;
               wait_before_next_call := wait;
               last_response := Some r |}
            rest.
Proof.
  intros Hcopied Hsleep Ha H200 Hrl Hbody Hfalsy Hcall.
  rewrite (attempts_step self _ _ _ _ _ _ Hcopied Hsleep).
  unfold on_attempt, on_response. rewrite Ha, H200, Hrl, Hbody. unfold after_loop, limited.
  cbn [last_response with_response started_at self_limiter rate_limit_failures].
  rewrite Hcall. unfold error_status. rewrite Hfalsy.
  cbn [mbind result_bind]. rewrite app_nil_r. reflexivity.
Qed.

(** X9. An answer with a status other than 200, 429 and 402 whose body is
    no JSON: the status of the record is [Error: ] followed by the raw
    body. *)
Theorem undecodable_error_body (row : list string) (columns : list Z) (l : locals)
        (a : attempt) (rest : list attempt) (copied : list string)
        (r : response) (reason : string) (wait : float) (lim : limiter) :
  traverse (list_getitem row) columns = Ok copied ->
  sleep (wait_before_next_call l) = Ok tt ->
  answered a = Responded r ->
  (status_code r =? 200) = false ->
  rate_limited r = false ->
  json_body r = Undecodable reason ->
  handle_rate_limit {| prev_rate_limit_remaining := prev_rate_limit_remaining (self_limiter l);
                       request_start_time := Some (started a) |} r (clock a)
  = Ok (wait, lim) ->
  attempts self row columns l (a :: rest)
  = Written (copied ++ ["Error: " +:+ text r])%list
            {| self_limiter := lim;
               rate_limit_failures := rate_limit_failures l;
               wait_before_next_call := wait;
               last_response := Some r |}
            rest.
Proof.
  intros Hcopied Hsleep Ha H200 Hrl Hbody Hcall.
  rewrite (attempts_step self _ _ _ _ _ _ Hcopied Hsleep).
  unfold on_attempt, on_response. rewrite Ha, H200, Hrl, Hbody. unfold after_loop, limited.
  cbn [last_response with_response started_at self_limiter rate_limit_failures].
  rewrite Hcall, error_status_message. reflexivity.
Qed.

Lemma unannotated_attempts (row : list string) (columns : list Z) (copied : list string)
      (env : list attempt) :
  traverse (list_getitem row) columns = Ok copied ->
  Forall (fun a => exists r j, answered a = Responded r /\ status_code r = 200
                               /\ json_body r = Decoded j /\ is_annotated j = Ok false) env ->
  forall l, sleep (wait_before_next_call l) = Ok tt ->
            exists l', attempts self row columns l env = Halted Pending l' [].
Proof.
  intros Hcopied Hall. induction Hall as [| a env (r & j & Ha & H200 & Hbody & Hann) _ IH];
    intros l Hsleep.
  - exists l. cbn. rewrite Hcopied, Hsleep. reflexivity.
  - rewrite (attempts_step self _ _ _ _ _ _ Hcopied Hsleep).
    unfold on_attempt, on_response. rewrite Ha, H200, Hbody, Hann. cbn [Z.eqb Pos.eqb].
    apply IH. exact Hsleep.
Qed.

(** X10. A service that answers every call with status 200 and a JSON
    value that lacks [text] or [entities] keeps [run] on the first row for
    as long as answers come: every answer is used up, only the header is
    written, and the run is still waiting for the next answer. *)
Theorem unannotated_answers_never_end (lim : limiter) (input : list (list string))
        (env : list attempt)
        (text_index : Z) (columns : list Z) (names : list string)
        (row : list string) (rows : list (list string))
        (field : string) (copied : list string) :
  columns_of self input = Ok (text_index, columns, names, row :: rows) ->
  list_getitem row text_index = Ok field ->
  traverse (list_getitem row) columns = Ok copied ->
  Forall (fun a => exists r j, answered a = Responded r /\ status_code r = 200
                               /\ json_body r = Decoded j /\ is_annotated j = Ok false) env ->
  let rep := run self lim input env in
  ended rep = Pending
  /\ written rep = [(names ++ "status" :: output_columns self)%list]
  /\ unused rep = [].
Proof.
  intros Hcols Hfield Hcopied Hall rep. subst rep. unfold run. rewrite Hcols.
  cbn [rows_loop]. unfold process_row. rewrite Hfield.
  destruct (unannotated_attempts row columns copied env Hcopied Hall
              (new_locals lim) (first_sleep lim)) as [l' ->].
  cbn. repeat split.
Qed.

End RowOutcomes.

Lemma first_call_failure_sample :
  let rep := @run Sample.printer Sample.counting new_limiter [["hello"]; ["world"]]
                  [Sample.at_times 1 2 (RequestException "timed out"); Sample.success] in
  ended rep = Uncaught UnboundLocalError
  /\ written rep = [(["Column 1"] ++ "status" :: output_columns Sample.counting)%list]
  /\ unused rep = [Sample.success].
Proof.
  apply (@first_call_failure Sample.printer Sample.counting new_limiter
           [["hello"]; ["world"]] (Sample.at_times 1 2 (RequestException "timed out"))
           [Sample.success] 0 [0] ["Column 1"] ["hello"] [["world"]] "hello" ["hello"]
           "timed out"); vm_compute; reflexivity.
Defined.

Lemma failure_after_a_response_sample :
  @attempts Sample.printer Sample.counting ["world"] [0] Sample.after_failure
    [Sample.at_times 3 4 (RequestException "timed out")]
  = Written (["world"] ++ ["Error: " +:+ "timed out"])%list
            {| self_limiter := {| prev_rate_limit_remaining := 10;
                                  request_start_time := Some 3%float |};
               rate_limit_failures := rate_limit_failures Sample.after_failure;
               wait_before_next_call := 9.5%float;
               last_response := Some (Sample.reply 500 (Sample.limits "10" "100")
                                        (Decoded (JObj [("message", JStr "boom")]))) |}
            [].
Proof.
  apply (@failure_after_a_response Sample.printer); vm_compute; reflexivity.
Defined.

Lemma falsy_error_payload_sample :
  @attempts Sample.printer Sample.counting ["hello"] [0] (new_locals new_limiter)
    [Sample.at_times 1 2
       (Responded (Sample.reply 500 (Sample.limits "10" "100") (Decoded (JObj []))))]
  = Written ["hello"]
            {| self_limiter := {| prev_rate_limit_remaining := 10;
                                  request_start_time := Some 1%float |};
               rate_limit_failures := rate_limit_failures (new_locals new_limiter);
               wait_before_next_call := 9.5%float;
               last_response := Some (Sample.reply 500 (Sample.limits "10" "100")
                                                   (Decoded (JObj []))) |}
            [].
Proof.
  eapply (@falsy_error_payload Sample.printer); vm_compute; reflexivity.
Defined.

Lemma undecodable_error_body_sample :
  let r := {| status_code := 502; headers := list_to_map (Sample.limits "10" "100");
              json_body := Undecodable "Expecting value"; text := "Bad Gateway" |} in
  @attempts Sample.printer Sample.counting ["hello"] [0] (new_locals new_limiter)
    [Sample.at_times 1 2 (Responded r)]
  = Written (["hello"] ++ ["Error: " +:+ text r])%list
            {| self_limiter := {| prev_rate_limit_remaining := 10;
                                  request_start_time := Some 1%float |};
               rate_limit_failures := rate_limit_failures (new_locals new_limiter);
               wait_before_next_call := 9.5%float;
               last_response := Some r |}
            [].
Proof.
  cbv zeta. eapply (@undecodable_error_body Sample.printer); vm_compute; reflexivity.
Defined.

Lemma unannotated_answers_sample :
  let a := Sample.at_times 1 2
             (Responded (Sample.reply 200 (Sample.limits "10" "100")
                                      (Decoded (JObj [("text", JStr "hello")])))) in
  let rep := @run Sample.printer Sample.counting new_limiter [["hello"]] [a; a; a] in
  ended rep = Pending
  /\ written rep = [(["Column 1"] ++ "status" :: output_columns Sample.counting)%list]
  /\ unused rep = [].
Proof.
  cbv zeta.
  apply (@unannotated_answers_never_end Sample.printer Sample.counting new_limiter
           [["hello"]] _ 0 [0] ["Column 1"] ["hello"] [] "hello" ["hello"]);
    try (vm_compute; reflexivity).
  repeat constructor; eexists; eexists; repeat split; vm_compute; reflexivity.
Defined.

(** ** The columns of the input file *)

Section Columns.
Context `{Printer}.
Variable self : processor.

Lemma list_index_found (x : string) (xs : list string) (i : Z) :
  list_index x xs = Ok i ->
  0 <= i < Z.of_nat (length xs) /\ nth_error xs (Z.to_nat i) = Some x.
Proof.
  revert i. induction xs as [| y xs IH]; intros i; cbn [list_index]; [discriminate |].
  destruct (String.eqb y x) eqn:E.
  - intros [= <-]. apply String.eqb_eq in E as ->. cbn. split; [lia | reflexivity].
  - destruct (list_index x xs) as [j |]; cbn; [| discriminate].
    intros [= <-]. destruct (IH j eq_refl) as [Hj Hn].
    split; [cbn [length]; lia |].
    replace (Z.to_nat (Z.succ j)) with (S (Z.to_nat j)) by lia. exact Hn.
Qed.

Lemma list_getitem_index (x : string) (xs : list string) (i : Z) :
  list_index x xs = Ok i -> list_getitem xs i = Ok x.
Proof.
  intros Hi. destruct (list_index_found _ _ _ Hi) as [Hr Hn]. unfold list_getitem.
  replace (i <? 0) with false by (symmetry; apply Z.ltb_ge; lia).
  replace (i <? 0) with false by (symmetry; apply Z.ltb_ge; lia).
  replace (Z.of_nat (length xs) <=? i) with false by (symmetry; apply Z.leb_gt; lia).
  cbn. rewrite Hn. reflexivity.
Qed.

Lemma list_index_missing (x : string) (xs : list string) :
  ~ In x xs -> list_index x xs = Raise ValueError.
Proof.
  induction xs as [| y xs IH]; intros Hnot; cbn [list_index]; [reflexivity |].
  destruct (String.eqb y x) eqn:E.
  - apply String.eqb_eq in E. destruct Hnot. left. exact E.
  - rewrite IH by (intros Hin; apply Hnot; right; exact Hin). reflexivity.
Qed.

Lemma list_index_raises (x : string) (xs : list string) (e : exn) :
  list_index x xs = Raise e -> e = ValueError.
Proof.
  induction xs as [| y xs IH]; cbn [list_index]; [intros [= <-]; reflexivity |].
  destruct (String.eqb y x); [discriminate |].
  destruct (list_index x xs); cbn; [discriminate |].
  intros [= <-]. apply IH. reflexivity.
Qed.

Lemma traverse_index_missing (first_row cs : list string) :
  Exists (fun c => ~ In c first_row) cs ->
  traverse (fun c => list_index c first_row) cs = Raise ValueError.
Proof.
  induction 1 as [c cs Hc | c cs _ IH]; cbn [traverse].
  - rewrite (list_index_missing _ _ Hc). reflexivity.
  - destruct (list_index c first_row) as [i | e] eqn:E; cbn.
    + rewrite IH. reflexivity.
    + rewrite (list_index_raises _ _ _ E). reflexivity.
Qed.

Lemma traverse_index_names (first_row cs : list string) (columns : list Z) :
  traverse (fun c => list_index c first_row) cs = Ok columns ->
  traverse (list_getitem first_row) columns = Ok cs.
Proof.
  revert columns. induction cs as [| c cs IH]; intros columns; cbn [traverse].
  - intros [= <-]. reflexivity.
  - destruct (list_index c first_row) as [i |] eqn:E; cbn; [| discriminate].
    destruct (traverse _ cs) as [idxs |]; cbn; [| discriminate].
    intros [= <-]. cbn [traverse]. rewrite (list_getitem_index _ _ _ E). cbn.
    rewrite (IH idxs eq_refl). reflexivity.
Qed.

(** X11. With a header row, the columns are found by name: the field of
    the header row at the position of the text column is the name asked
    for, the header fields written for the copied columns are the names
    asked for, in their order, and the rows read are those after the header
    row. *)
Theorem columns_by_name (first_row : list string) (rows rows' : list (list string))
        (text_index : Z) (columns : list Z) (names : list string) :
  has_headers self = true ->
  columns_of self (first_row :: rows) = Ok (text_index, columns, names, rows') ->
  list_getitem first_row text_index = Ok (text_column self)
  /\ traverse (list_getitem first_row) columns = Ok (copy_columns self)
  /\ names = copy_columns self
  /\ rows' = rows.
Proof.
  intros Hh. unfold columns_of. rewrite Hh.
  destruct (list_index (text_column self) first_row) as [ti |] eqn:Et; cbn; [| discriminate].
  destruct (traverse _ (copy_columns self)) as [cols |] eqn:Ec; cbn; [| discriminate].
  rewrite (traverse_index_names _ _ _ Ec). cbn. intros [= <- <- <- <-].
  split; [exact (list_getitem_index _ _ _ Et) |].
  split; [exact (traverse_index_names _ _ _ Ec) |]. split; reflexivity.
Qed.

(** X12. With a header row expected, a file without any row, or a header
    row that lacks the text column or one of the copied columns, stops
    [run] with [StopIteration] or [ValueError] before anything is written
    and before any call is made. *)
Theorem header_row_problems (lim : limiter) (input : list (list string))
        (env : list attempt) :
  has_headers self = true ->
  (input = []
   \/ exists first_row rows,
        input = first_row :: rows
        /\ (~ In (text_column self) first_row
            \/ Exists (fun c => ~ In c first_row) (copy_columns self))) ->
  let rep := run self lim input env in
  (ended rep = Uncaught StopIteration \/ ended rep = Uncaught ValueError)
  /\ written rep = []
  /\ unused rep = env.
Proof.
  intros Hh Hbad rep. subst rep. unfold run, columns_of. rewrite Hh.
  destruct Hbad as [-> | (first_row & rows & -> & [Ht | Hc])].
  - cbn. auto.
  - rewrite (list_index_missing _ _ Ht). cbn. auto.
  - destruct (list_index (text_column self) first_row) as [ti | e] eqn:Et; cbn.
    + rewrite (traverse_index_missing _ _ Hc). cbn. auto.
    + rewrite (list_index_raises _ _ _ Et). auto.
Qed.

Lemma traverse_forall2 {A B : Type} (f : A -> result B) (xs : list A) (ys : list B) :
  traverse f xs = Ok ys -> Forall2 (fun x y => f x = Ok y) xs ys.
Proof.
  revert ys. induction xs as [| x xs IH]; intros ys; cbn [traverse].
  - intros [= <-]. constructor.
  - destruct (f x) as [y |] eqn:E; cbn; [| discriminate].
    destruct (traverse f xs) as [ys' |]; cbn; [| discriminate].
    intros [= <-]. constructor; [exact E | apply IH; reflexivity].
Qed.

Lemma list_getitem_inside {A : Type} (xs : list A) (j : Z) (d : A) :
  0 <= j < Z.of_nat (length xs) -> list_getitem xs j = Ok (nth (Z.to_nat j) xs d).
Proof.
  intros Hj. unfold list_getitem.
  replace (j <? 0) with false by (symmetry; apply Z.ltb_ge; lia).
  replace (j <? 0) with false by (symmetry; apply Z.ltb_ge; lia).
  replace (Z.of_nat (length xs) <=? j) with false by (symmetry; apply Z.leb_gt; lia).
  cbn. rewrite (nth_error_nth' xs d) by lia. reflexivity.
Qed.

Lemma list_getitem_last {A : Type} (xs : list A) (d : A) :
  xs <> [] -> list_getitem xs (-1) = Ok (List.last xs d).
Proof.
  intros Hne. unfold list_getitem. cbn [Z.ltb Z.compare].
  assert (0 < Z.of_nat (length xs)) as Hlen by (destruct xs; [contradiction | cbn; lia]).
  replace (-1 + Z.of_nat (length xs) <? 0) with false by (symmetry; apply Z.ltb_ge; lia).
  replace (Z.of_nat (length xs) <=? -1 + Z.of_nat (length xs)) with false
    by (symmetry; apply Z.leb_gt; lia).
  cbn. replace (Z.to_nat (-1 + Z.of_nat (length xs))) with (length xs - 1)%nat by lia.
  rewrite (nth_error_nth' xs d) by lia. f_equal.
  clear Hlen. induction xs as [| x xs IH]; [contradiction |].
  destruct xs as [| y xs]; [reflexivity |].
  cbn [length List.last] in *. replace (S (S (length xs)) - 1)%nat with (S (length xs)) by lia.
  cbn [nth]. rewrite <- IH by discriminate.
  replace (S (length xs) - 1)%nat with (length xs) by lia. reflexivity.
Qed.

Lemma list_getitem_beyond {A : Type} (xs : list A) (j : Z) :
  Z.of_nat (length xs) <= j -> list_getitem xs j = Raise IndexError.
Proof.
  intros Hj. unfold list_getitem.
  replace (j <? 0) with false by (symmetry; apply Z.ltb_ge; lia).
  replace (j <? 0) with false by (symmetry; apply Z.ltb_ge; lia).
  replace (Z.of_nat (length xs) <=? j) with true by (symmetry; apply Z.leb_le; lia).
  reflexivity.
Qed.

(** X13. Without a header row the columns are numbered from one: a
    number [k] from 1 to the width of a row reads the [k]-th field of the
    row and is labelled [Column k]; the number 0 reads the last field of
    the row; a number above the width raises [IndexError] when a row is
    read. *)
Theorem columns_by_number (input rows : list (list string))
        (text_index : Z) (columns : list Z) (names : list string) :
  has_headers self = false ->
  columns_of self input = Ok (text_index, columns, names, rows) ->
  rows = input
  /\ Forall2 (fun c name => exists k, py_int c = Ok k /\ name = "Column " +:+ str_of_int k)
             (copy_columns self) names
  /\ Forall2 (fun c col =>
                exists k, py_int c = Ok k /\
                  forall row : list string,
                    (1 <= k <= Z.of_nat (length row) ->
                       list_getitem row col = Ok (nth (Z.to_nat (k - 1)) row EmptyString))
                    /\ (k = 0 -> row <> [] -> list_getitem row col = Ok (List.last row EmptyString))
                    /\ (Z.of_nat (length row) < k -> list_getitem row col = Raise IndexError))
             (copy_columns self) columns.
Proof.
  intros Hh. unfold columns_of. rewrite Hh.
  destruct (py_int (text_column self)) as [t |]; cbn; [| discriminate].
  destruct (traverse _ (copy_columns self)) as [cols |] eqn:Ec; cbn; [| discriminate].
  intros [= <- <- <- <-]. split; [reflexivity |].
  apply traverse_forall2 in Ec.
  split.
  - induction Ec as [| c col cs cols' Hc _ IH]; cbn [map]; constructor; [| exact IH].
    destruct (py_int c) as [k |]; cbn in Hc; [| discriminate].
    injection Hc as <-. exists k. split; [reflexivity |].
    replace (k - 1 + 1) with k by lia. reflexivity.
  - induction Ec as [| c col cs cols' Hc _ IH]; constructor; [| exact IH].
    destruct (py_int c) as [k |]; cbn in Hc; [| discriminate].
    injection Hc as <-. exists k. split; [reflexivity |].
    intros row. split; [| split].
    + intros Hk. apply list_getitem_inside. lia.
    + intros -> Hne. apply list_getitem_last. exact Hne.
    + intros Hk. apply list_getitem_beyond. lia.
Qed.

End Columns.

Lemma columns_by_name_sample :
  let self := {| has_headers := true; text_column := "body"; copy_columns := ["id"; "lang"];
                 output_columns := ["Person"];
                 output_functions := [text_under "Person" ";"] |} in
  list_getitem ["id"; "body"; "lang"; "body"] 1 = Ok (text_column self)
  /\ traverse (list_getitem ["id"; "body"; "lang"; "body"]) [0; 2] = Ok (copy_columns self)
  /\ ["id"; "lang"] = copy_columns self
  /\ [["7"; "hello"; "en"; "x"]] = [["7"; "hello"; "en"; "x"]].
Proof.
  cbv zeta.
  apply (columns_by_name
           {| has_headers := true; text_column := "body"; copy_columns := ["id"; "lang"];
              output_columns := ["Person"];
              output_functions := [text_under "Person" ";"] |}
           ["id"; "body"; "lang"; "body"] [["7"; "hello"; "en"; "x"]]);
    vm_compute; reflexivity.
Defined.

Lemma header_row_problems_sample :
  let self := {| has_headers := true; text_column := "body"; copy_columns := ["id"; "lang"];
                 output_columns := ["Person"];
                 output_functions := [text_under "Person" ";"] |} in
  let rep := @run Sample.printer self new_limiter [["id"; "body"]; ["7"; "hello"]]
                  [Sample.success] in
  (ended rep = Uncaught StopIteration \/ ended rep = Uncaught ValueError)
  /\ written rep = []
  /\ unused rep = [Sample.success].
Proof.
  cbv zeta. apply (@header_row_problems Sample.printer); [reflexivity |].
  right. exists ["id"; "body"], [["7"; "hello"]]. split; [reflexivity |].
  right. apply Exists_cons_tl, Exists_cons_hd. vm_compute. intuition discriminate.
Defined.

Lemma columns_by_number_sample :
  [["a"; "b"; "c"]] = [["a"; "b"; "c"]]
  /\ Forall2 (fun c name => exists k, py_int c = Ok k /\ name = "Column " +:+ str_of_int k)
             (copy_columns {| has_headers := false; text_column := "2";
                              copy_columns := ["1"; "0"; "4"]; output_columns := ["Person"];
                              output_functions := [text_under "Person" ";"] |})
             ["Column 1"; "Column 0"; "Column 4"]
  /\ Forall2 (fun c col =>
                exists k, py_int c = Ok k /\
                  forall row : list string,
                    (1 <= k <= Z.of_nat (length row) ->
                       list_getitem row col = Ok (nth (Z.to_nat (k - 1)) row EmptyString))
                    /\ (k = 0 -> row <> [] -> list_getitem row col = Ok (List.last row EmptyString))
                    /\ (Z.of_nat (length row) < k -> list_getitem row col = Raise IndexError))
             (copy_columns {| has_headers := false; text_column := "2";
                              copy_columns := ["1"; "0"; "4"]; output_columns := ["Person"];
                              output_functions := [text_under "Person" ";"] |})
             [0; -1; 3].
Proof.
  apply (columns_by_number
           {| has_headers := false; text_column := "2";
              copy_columns := ["1"; "0"; "4"]; output_columns := ["Person"];
              output_functions := [text_under "Person" ";"] |}
           [["a"; "b"; "c"]] [["a"; "b"; "c"]] 1); vm_compute; reflexivity.
Defined.

(** ** Setting up: metadata, selectors and column functions *)

Section SetupFacts.
Context `{Printer}.

Lemma remember_lookup (sels : list string) :
  forall (acc : gmap string string) (ty : string),
    fold_left remember sels acc !! ty
    = match acc !! ty with
      | Some sel => Some sel
      | None => List.find (fun sel => String.eqb (after_colon sel) ty) sels
      end.
Proof.
  induction sels as [| sel sels IH]; intros acc ty; cbn [fold_left List.find].
  - destruct (acc !! ty); reflexivity.
  - rewrite IH. unfold remember.
    destruct (acc !! after_colon sel) as [old |] eqn:Eold.
    + destruct (acc !! ty) as [found |] eqn:Ety; [reflexivity |].
      destruct (String.eqb (after_colon sel) ty) eqn:E; [| reflexivity].
      apply String.eqb_eq in E. congruence.
    + destruct (String.eqb (after_colon sel) ty) eqn:E.
      * apply String.eqb_eq in E. subst ty. rewrite lookup_insert_eq, Eold. reflexivity.
      * apply String.eqb_neq in E. rewrite lookup_insert_ne by exact E. reflexivity.
Qed.

(** X14. The map that [get_annotations_from_metadata] builds from a 200
    response gives, for every annotation type, the first selector of that
    type in the default annotations followed by the additional ones, each
    stripped; a type that no selector names has no entry. *)
Theorem metadata_first_selector_wins (r : response) (service_metadata : json)
        (defaults additional : list string) :
  status_code r = 200 ->
  json_body r = Decoded service_metadata ->
  selectors_in service_metadata "defaultAnnotations" = Ok defaults ->
  selectors_in service_metadata "additionalAnnotations" = Ok additional ->
  exists type_to_sel,
    get_annotations_from_metadata r = Ok type_to_sel
    /\ forall ann_type,
         type_to_sel !! ann_type
         = List.find (fun sel => String.eqb (after_colon sel) ann_type)
                     (defaults ++ additional).
Proof.
  intros H200 Hbody Hd Ha. unfold get_annotations_from_metadata.
  rewrite H200, Hbody, Hd. cbn [Z.eqb Pos.eqb mbind result_bind]. rewrite Ha.
  cbn [mbind result_bind]. eexists. split; [reflexivity |].
  intros ann_type. unfold remember_all. rewrite remember_lookup, lookup_empty. reflexivity.
Qed.

Lemma metadata_entries (r : response) (type_to_sel : gmap string string)
      (ann_type sel : string) :
  get_annotations_from_metadata r = Ok type_to_sel ->
  type_to_sel !! ann_type = Some sel -> after_colon sel = ann_type.
Proof.
  unfold get_annotations_from_metadata. destruct (status_code r =? 200).
  - destruct (json_body r) as [meta |]; [| discriminate].
    destruct (selectors_in meta "defaultAnnotations") as [ds |]; cbn; [| discriminate].
    destruct (selectors_in meta "additionalAnnotations") as [adds |]; cbn; [| discriminate].
    intros [= <-]. unfold remember_all. rewrite remember_lookup, lookup_empty.
    intros Hfind. apply List.find_some in Hfind as [_ Heq]. apply String.eqb_eq. exact Heq.
  - intros [= <-]. rewrite lookup_empty. discriminate.
Qed.

Lemma after_colon_without (s : string) : has_colon s = false -> after_colon s = EmptyString.
Proof.
  unfold has_colon. induction s as [| c s IH]; cbn; [reflexivity |].
  destruct (Ascii.eqb c ":"); [discriminate | exact IH].
Qed.

Lemma ann_type_re_head (s head : string) (rest : option string) :
  ann_type_re s = Some (head, rest) -> head <> EmptyString.
Proof.
  unfold ann_type_re.
  destruct (String.eqb (take_while _ s) EmptyString) eqn:E; [discriminate |].
  apply String.eqb_neq in E.
  destruct (String.eqb _ EmptyString); [intros [= <- _]; exact E |].
  destruct (has_char _ _); [discriminate | intros [= <- _]; exact E].
Qed.

(** X15. With the map built from the metadata response, whatever the
    response was, a column definition that compiles gets a selector that
    contains a colon, and its function reads the annotations of the type
    written after the first colon of that selector. *)
Theorem selector_names_the_type (r : response) (type_to_sel : gmap string string)
        (col sel : string) (fn : json -> result string) :
  get_annotations_from_metadata r = Ok type_to_sel ->
  output_function col type_to_sel = Ok (sel, fn) ->
  has_colon sel = true
  /\ exists head rest, ann_type_re (strip col) = Some (head, rest)
                       /\ fn = extractor (after_colon sel) rest.
Proof.
  intros Hmeta. unfold output_function.
  destruct (ann_type_re (strip col)) as [[head rest] |] eqn:Hre; [| discriminate].
  pose proof (ann_type_re_head _ _ _ Hre) as Hhead.
  unfold resolve. destruct (has_colon head) eqn:Hcolon.
  - intros [= <- <-]. split; [exact Hcolon | eauto].
  - destruct (type_to_sel !! head) as [found |] eqn:Hfound.
    + intros [= <- <-]. pose proof (metadata_entries _ _ _ _ Hmeta Hfound) as Hty.
      split.
      * destruct (has_colon found) eqn:E; [reflexivity |].
        rewrite (after_colon_without _ E) in Hty. congruence.
      * exists head, rest. rewrite Hty. split; reflexivity.
    + intros [= <- <-]. split; [reflexivity |]. exists head, rest. split; reflexivity.
Qed.

End SetupFacts.

Lemma metadata_first_selector_wins_sample :
  let meta := JObj [("defaultAnnotations", JStr ":Person, :Location");
                    ("additionalAnnotations", JStr "Key:Person,Bio:Gene")] in
  exists type_to_sel,
    get_annotations_from_metadata (Sample.reply 200 [] (Decoded meta)) = Ok type_to_sel
    /\ forall ann_type,
         type_to_sel !! ann_type
         = List.find (fun sel => String.eqb (after_colon sel) ann_type)
                     ([":Person"; ":Location"] ++ ["Key:Person"; "Bio:Gene"]).
Proof.
  cbv zeta.
  apply (metadata_first_selector_wins _
           (JObj [("defaultAnnotations", JStr ":Person, :Location");
                  ("additionalAnnotations", JStr "Key:Person,Bio:Gene")]));
    vm_compute; reflexivity.
Defined.

Lemma selector_names_the_type_sample :
  has_colon "Bio:Gene" = true
  /\ exists head rest, ann_type_re (strip " Gene #count ") = Some (head, rest)
                       /\ @extractor Sample.printer "Gene" (Some "#count")
                          = @extractor Sample.printer (after_colon "Bio:Gene") rest.
Proof.
  apply (@selector_names_the_type Sample.printer
           (Sample.reply 200 []
              (Decoded (JObj [("defaultAnnotations", JStr ":Person, :Location");
                              ("additionalAnnotations", JStr "Key:Person,Bio:Gene")])))
           (remember_all [":Person"; ":Location"; "Key:Person"; "Bio:Gene"])
           " Gene #count " "Bio:Gene").
  - vm_compute. reflexivity.
  - unfold output_function.
    change (ann_type_re (strip " Gene #count ")) with (Some ("Gene", Some "#count")).
    replace (resolve "Gene" (remember_all [":Person"; ":Location"; "Key:Person"; "Bio:Gene"]))
      with ("Bio:Gene", "Gene") by (vm_compute; reflexivity).
    reflexivity.
Defined.

(** ** A processor set up by [__init__] *)

Section InitFacts.
Context `{Printer}.

Lemma columns_of_lengths (self : processor) (input rows : list (list string))
      (text_index : Z) (columns : list Z) (names : list string) :
  columns_of self input = Ok (text_index, columns, names, rows) ->
  length columns = length (copy_columns self) /\ length names = length (copy_columns self).
Proof.
  unfold columns_of. destruct (has_headers self).
  - destruct input as [| first_row rest]; [discriminate |].
    destruct (list_index _ first_row); cbn; [| discriminate].
    destruct (traverse _ (copy_columns self)) as [cols |] eqn:Ec; cbn; [| discriminate].
    destruct (traverse _ cols) as [ns |] eqn:En; cbn; [| discriminate].
    intros [= _ <- <- _]. apply traverse_length in Ec, En. split; lia.
  - destruct (py_int _); cbn; [| discriminate].
    destruct (traverse _ (copy_columns self)) as [cols |] eqn:Ec; cbn; [| discriminate].
    intros [= _ <- <- _]. apply traverse_length in Ec. rewrite length_map. split; lia.
Qed.

Lemma init_parts (args : arguments) (metadata : response) (self : processor)
      (ann_selectors : gset string) :
  init args metadata = Ok (self, ann_selectors) ->
  exists type_to_sel pairs,
    get_annotations_from_metadata metadata = Ok type_to_sel
    /\ traverse (fun c => output_function c type_to_sel) (stripped (arg_results args)) = Ok pairs
    /\ pairs <> []
    /\ ann_selectors = list_to_set (map fst pairs)
    /\ self = {| has_headers := arg_has_headers args;
                 text_column := arg_text_column args;
                 copy_columns := stripped (arg_copy_columns args);
                 output_columns := stripped (arg_results args);
                 output_functions := map snd pairs |}.
Proof.
  unfold init, compile.
  destruct (get_annotations_from_metadata metadata) as [m |] eqn:Hm;
    cbn [mbind result_bind]; [| discriminate].
  destruct (traverse _ (stripped (arg_results args))) as [pairs |] eqn:Hp;
    cbn [mbind result_bind]; [| discriminate].
  destruct pairs as [| p pairs]; cbn [mbind result_bind]; [discriminate |].
  intros Heq. exists m, (p :: pairs).
  split; [reflexivity |]. split; [exact Hp |]. split; [discriminate |].
  split; congruence.
Qed.

(** X16. In a processor that [__init__] returns there is one output
    function per output column and at least one of them, and every record
    that [run] writes after the header is either as wide as the header (a
    success) or has at most the copied fields and one status. *)
Theorem init_record_widths (args : arguments) (metadata : response) (self : processor)
        (ann_selectors : gset string) :
  init args metadata = Ok (self, ann_selectors) ->
  length (output_functions self) = length (output_columns self)
  /\ (0 < length (output_columns self))%nat
  /\ forall lim input env header records,
       written (run self lim input env) = header :: records ->
       length header
       = (length (copy_columns self) + 1 + length (output_columns self))%nat
       /\ Forall (fun record =>
                    length record = length header
                    \/ (length record <= length (copy_columns self) + 1)%nat)
                 records.
Proof.
  intros Hinit.
  destruct (init_parts _ _ _ _ Hinit) as (m & pairs & _ & Hpairs & Hne & _ & ->).
  cbn [output_functions output_columns copy_columns].
  pose proof (traverse_length _ _ _ Hpairs) as Hlen. rewrite length_map.
  split; [exact Hlen |].
  split; [destruct pairs; [contradiction | cbn in Hlen; lia] |].
  intros lim input env header records. unfold run.
  set (self := {| has_headers := _ |}).
  destruct (columns_of self input) as [[[[ti cols] names] rows] |] eqn:Hcols;
    cbn [written]; [| discriminate].
  intros [= <- <-]. destruct (columns_of_lengths _ _ _ _ _ _ Hcols) as [Hc Hn].
  cbn [copy_columns self] in Hc, Hn.
  split; [rewrite length_app; cbn [length]; rewrite Hn; lia |].
  destruct (rows_loop_records self ti cols rows (new_locals lim) env) as (_ & _ & Hall).
  induction Hall as [| row record rs recs (copied & Hcopied & Hshape) _ IH]; constructor;
    [| exact IH].
  apply traverse_length in Hcopied.
  destruct Hshape as [(derived & -> & Hd) | (status & -> & Hs & _)].
  - left. rewrite !length_app. cbn [length]. cbn [output_functions self] in Hd.
    rewrite length_map in Hd. lia.
  - right. rewrite length_app. lia.
Qed.

(** X17. The set of selectors that [__init__] prepares for the calls
    holds exactly the selectors of its output columns. *)
Theorem init_selectors (args : arguments) (metadata : response) (self : processor)
        (ann_selectors : gset string) :
  init args metadata = Ok (self, ann_selectors) ->
  exists type_to_sel,
    get_annotations_from_metadata metadata = Ok type_to_sel
    /\ forall sel,
         sel ∈ ann_selectors
         <-> exists c fn, In c (output_columns self)
                          /\ output_function c type_to_sel = Ok (sel, fn).
Proof.
  intros Hinit.
  destruct (init_parts _ _ _ _ Hinit) as (m & pairs & Hmeta & Hpairs & _ & -> & ->).
  clear Hinit. exists m. split; [exact Hmeta |]. cbn [output_columns].
  apply traverse_forall2 in Hpairs. clear Hmeta.
  remember (stripped (arg_results args)) as cols eqn:Hcols. clear Hcols. intros sel. rewrite elem_of_list_to_set.
  rewrite list_elem_of_In, in_map_iff. split.
  - intros ([sel' fn] & Hfst & Hin). cbn in Hfst. subst sel'.
    induction Hpairs as [| c p cs ps Hc _ IH]; [contradiction |].
    destruct Hin as [-> | Hin].
    + exists c, fn. split; [left; reflexivity | exact Hc].
    + destruct (IH Hin) as (c' & fn' & Hc' & Hout). exists c', fn'.
      split; [right; exact Hc' | exact Hout].
  - intros (c & fn & Hin & Hout).
    induction Hpairs as [| c' p cs ps Hc _ IH]; [contradiction |].
    destruct Hin as [-> | Hin].
    + exists (sel, fn). split; [reflexivity |]. left. congruence.
    + destruct (IH Hin) as (p' & Hfst & Hin'). exists p'. split; [exact Hfst | right; exact Hin'].
Qed.

End InitFacts.

Lemma init_record_widths_sample :
  let self := {| has_headers := true;
                 text_column := "t";
                 copy_columns := ["id"];
                 output_columns := ["Person"; "Gene #count"];
                 output_functions := [@extractor Sample.printer "Person" None;
                                      @extractor Sample.printer "Gene" (Some "#count")] |} in
  length (output_functions self) = length (output_columns self)
  /\ (0 < length (output_columns self))%nat
  /\ forall lim input env header records,
       written (@run Sample.printer self lim input env) = header :: records ->
       length header
       = (length (copy_columns self) + 1 + length (output_columns self))%nat
       /\ Forall (fun record =>
                    length record = length header
                    \/ (length record <= length (copy_columns self) + 1)%nat)
                 records.
Proof.
  cbv zeta.
  apply (@init_record_widths Sample.printer
           {| arg_has_headers := true; arg_text_column := "t";
              arg_copy_columns := [" id "; " "];
              arg_results := ["Person"; "  "; " Gene #count"] |}
           (Sample.reply 200 []
              (Decoded (JObj [("defaultAnnotations", JStr ":Person, :Location");
                              ("additionalAnnotations", JStr "Key:Person,Bio:Gene")])))
           _ (list_to_set [":Person"; "Bio:Gene"])).
  vm_compute. reflexivity.
Defined.

Lemma init_selectors_sample :
  let self := {| has_headers := true;
                 text_column := "t";
                 copy_columns := ["id"];
                 output_columns := ["Person"; "Gene #count"];
                 output_functions := [@extractor Sample.printer "Person" None;
                                      @extractor Sample.printer "Gene" (Some "#count")] |} in
  exists type_to_sel,
    get_annotations_from_metadata
      (Sample.reply 200 []
         (Decoded (JObj [("defaultAnnotations", JStr ":Person, :Location");
                         ("additionalAnnotations", JStr "Key:Person,Bio:Gene")])))
    = Ok type_to_sel
    /\ forall sel,
         sel ∈ (list_to_set [":Person"; "Bio:Gene"] : gset string)
         <-> exists c fn, In c (output_columns self)
                          /\ @output_function Sample.printer c type_to_sel = Ok (sel, fn).
Proof.
  cbv zeta.
  apply (@init_selectors Sample.printer
           {| arg_has_headers := true; arg_text_column := "t";
              arg_copy_columns := [" id "; " "];
              arg_results := ["Person"; "  "; " Gene #count"] |}).
  vm_compute. reflexivity.
Defined.

(** ** Further properties of templates and of the text under an annotation *)

Section TemplateEdges.
Context `{Printer}.

Lemma append_empty (s : string) : s +:+ EmptyString = s.
Proof. induction s as [| c s IH]; [reflexivity |]. change (String c (s +:+ "") = String c s). rewrite IH. reflexivity. Qed.

Lemma length_append (s t : string) :
  String.length (s +:+ t) = (String.length s + String.length t)%nat.
Proof.
  induction s as [| c s IH]; [reflexivity |].
  change (S (String.length (s +:+ t)) = S (String.length s + String.length t)).
  rewrite IH. reflexivity.
Qed.

Lemma scan_skips {G : Type} (match_at : string -> option (G * nat)) (s : string) :
  forall k, (String.length s <= k)%nat -> scan match_at k s = [].
Proof.
  induction s as [| c s IH]; intros k Hk; [reflexivity |].
  destruct k as [| k]; [cbn in Hk; lia |]. cbn [scan]. apply IH. cbn in Hk. lia.
Qed.

Lemma bracket_body_found (x tail : string) :
  has_char (fun c => Ascii.eqb c "]" || is_newline c) x = false ->
  bracket_body (x +:+ String "]" tail) = Some x.
Proof.
  induction x as [| c x IH]; intros Hx; [reflexivity |].
  cbn [has_char] in Hx. apply orb_false_elim in Hx as [Hc Hx].
  apply orb_false_elim in Hc as [Hclose Hnl].
  change (bracket_body (String c (x +:+ String "]" tail)) = Some (String c x)).
  cbn [bracket_body]. rewrite Hclose, Hnl, (IH Hx). reflexivity.
Qed.

(** X18. A template that is one bracketed literal, not empty and without
    a closing bracket or a line break inside, evaluates to the literal, for
    every annotation and response, whatever their shape. *)
Theorem bracketed_literal (response ann : json) (x : string) :
  x <> EmptyString ->
  has_char (fun c => Ascii.eqb c "]" || is_newline c) x = false ->
  re_sub template_re (replacement response ann) (String "[" (x +:+ "]")) = Ok x.
Proof.
  intros Hne Hx. unfold re_sub. cbn [scan].
  assert (template_re (String "[" (x +:+ "]")) = Some ((Some x, None, None), S (String.length x)))
    as -> by (unfold template_re; cbn [Ascii.eqb Bool.eqb]; rewrite (bracket_body_found _ _ Hx);
              reflexivity).
  rewrite scan_skips by (rewrite length_append; cbn; lia).
  cbn [substitute]. destruct x as [| c x]; [contradiction |].
  cbn [replacement mbind result_bind]. rewrite append_empty. reflexivity.
Qed.

(** X19. A template without letters, digits, underscores and opening
    brackets is given back unchanged for every annotation. *)
Theorem plain_text_is_copied (response ann : json) (template : string) :
  has_char (fun c => Ascii.eqb c "[" || is_word c) template = false ->
  re_sub template_re (replacement response ann) template = Ok template.
Proof.
  unfold re_sub. induction template as [| c t IH]; intros Hplain; [reflexivity |].
  cbn [has_char] in Hplain. apply orb_false_elim in Hplain as [Hc Ht].
  apply orb_false_elim in Hc as [Hopen Hword].
  cbn [scan]. assert (template_re (String c t) = None) as ->
    by (unfold template_re; rewrite Hopen, Hword; reflexivity).
  cbn [substitute]. rewrite (IH Ht). reflexivity.
Qed.

(** X20. On a response whose [entities] object has no entry for the type,
    or an empty list, every kind of column is defined: the text column and
    any template column are empty, whatever the template says, and the
    presence and count columns are [0]. *)
Theorem no_annotations (response : json) (es : list (string * json))
        (ann_type template : string) :
  getitem response "entities" = Ok (JObj es) ->
  assoc ann_type es = None \/ assoc ann_type es = Some (JArr []) ->
  text_under ann_type ";" response = Ok EmptyString
  /\ response_to_column ann_type template ";" response = Ok EmptyString
  /\ present_flag ann_type response = Ok "0"
  /\ ProcessCsv.count ann_type response = Ok "0".
Proof.
  intros Hent Habsent.
  assert (get_or_empty (JObj es) ann_type = Ok (JArr [])) as Hfound
    by (cbn; destruct Habsent as [-> | ->]; reflexivity).
  unfold text_under, response_to_column, annotations, present_flag, ProcessCsv.count.
  rewrite Hent. cbn [mbind result_bind]. rewrite Hfound. repeat split.
Qed.

Lemma get_substring (s : string) :
  forall (k n : nat),
    String.substring k (S n) s
    = match String.get k s with
      | Some c => String c (String.substring (S k) n s)
      | None => EmptyString
      end.
Proof.
  induction s as [| c s IH]; intros k n.
  - destruct k; reflexivity.
  - destruct k as [| k].
    + cbn. destruct s; destruct n; reflexivity.
    + cbn [String.substring String.get]. rewrite IH. reflexivity.
Qed.

Lemma substring_beyond (s : string) :
  forall (k n : nat), (String.length s <= k)%nat -> String.substring k n s = EmptyString.
Proof.
  induction s as [| c s IH]; intros k n Hk.
  - destruct k, n; reflexivity.
  - destruct k as [| k]; [cbn in Hk; lia |]. cbn [String.substring]. apply IH. cbn in Hk. lia.
Qed.

Lemma substring_nothing (s : string) : forall k, (k <= String.length s)%nat ->
  String.substring k 0 s = EmptyString.
Proof.
  induction s as [| c s IH]; intros k Hk.
  - destruct k; reflexivity.
  - destruct k as [| k]; [reflexivity |]. cbn [String.substring]. apply IH. cbn in Hk. lia.
Qed.

Lemma pick_chars_substring (s : string) (n : nat) :
  forall k : nat,
    (k + n <= String.length s)%nat ->
    pick_chars s (Z.of_nat k) 1 n = String.substring k n s.
Proof.
  induction n as [| n IH]; intros k Hk.
  - cbn [pick_chars]. rewrite substring_nothing by lia. reflexivity.
  - cbn [pick_chars]. rewrite get_substring, Nat2Z.id.
    destruct (String.get k s) as [c |]; [| reflexivity].
    replace (Z.of_nat k + 1) with (Z.of_nat (S k)) by lia.
    rewrite IH by lia. reflexivity.
Qed.

Lemma substring_cut (s : string) :
  forall (k n : nat), (String.length s <= k + n)%nat ->
    String.substring k n s = String.substring k (String.length s - k) s.
Proof.
  induction s as [| c s IH]; intros k n Hk.
  - destruct k, n; reflexivity.
  - destruct k as [| k].
    + cbn [String.length] in *. destruct n as [| n]; [lia |].
      replace (S (String.length s) - 0)%nat with (S (String.length s)) by lia.
      cbn [String.substring]. f_equal.
      rewrite (IH 0%nat n) by lia.
      replace (String.length s - 0)%nat with (String.length s) by lia. reflexivity.
    + cbn [String.substring String.length]. apply IH. cbn in Hk. lia.
Qed.

(** [s[i:j]] for [0 <= i <= j]: at most [j - i] characters from offset
    [i] on. *)
Lemma span_substring (s : string) (i j : Z) :
  0 <= i <= j ->
  span s i j = String.substring (Z.to_nat i) (Z.to_nat (j - i)) s.
Proof.
  intros Hij. unfold span.
  set (len := Z.of_nat (String.length s)).
  unfold adjust_index, slice_length. cbn [Z.ltb Z.compare].
  replace (i <? 0) with false by (symmetry; apply Z.ltb_ge; lia).
  replace (j <? 0) with false by (symmetry; apply Z.ltb_ge; lia).
  destruct (len <=? i) eqn:Ei.
  - apply Z.leb_le in Ei.
    replace (len <=? j) with true by (symmetry; apply Z.leb_le; lia).
    rewrite Z.ltb_irrefl. cbn [Z.to_nat pick_chars].
    rewrite substring_beyond by (subst len; lia). reflexivity.
  - apply Z.leb_gt in Ei. destruct (len <=? j) eqn:Ej.
    + apply Z.leb_le in Ej.
      replace (i <? len) with true by (symmetry; apply Z.ltb_lt; lia).
      rewrite Z.div_1_r.
      rewrite (substring_cut s (Z.to_nat i) (Z.to_nat (j - i))) by (subst len; lia).
      replace i with (Z.of_nat (Z.to_nat i)) at 1 by lia.
      rewrite pick_chars_substring by (subst len; lia).
      f_equal. subst len. lia.
    + apply Z.leb_gt in Ej. destruct (i <? j) eqn:Eij.
      * apply Z.ltb_lt in Eij. rewrite Z.div_1_r.
        replace i with (Z.of_nat (Z.to_nat i)) at 1 by lia.
        rewrite pick_chars_substring by (subst len; lia). f_equal. lia.
      * apply Z.ltb_ge in Eij. assert (j = i) as -> by lia.
        rewrite Z.sub_diag. cbn [Z.to_nat pick_chars].
        rewrite substring_nothing by (subst len; lia). reflexivity.
Qed.

(** X21. For an annotation whose indices [(i, j)] satisfy [0 <= i <= j],
    the text under it is the unescaped run of at most [j - i] characters of
    the response text that starts at offset [i]; indices beyond the end of
    the text shorten the run and never fail. *)
Theorem text_of_is_a_substring (r : service_response) (a : annotation) :
  0 <= fst (indices a) <= snd (indices a) ->
  covered_text (encode r) (encode_annotation a)
  = Ok (unescape_lt_amp
          (String.substring (Z.to_nat (fst (indices a)))
                            (Z.to_nat (snd (indices a) - fst (indices a)))
                            (full_text r))).
Proof.
  intros Hij. rewrite covered_text_encode. unfold text_of.
  rewrite span_substring by exact Hij. reflexivity.
Qed.

Lemma render_length (s : string) :
  forall k, (String.length (render (scan lt_amp_re k s)) <= String.length s)%nat.
Proof.
  induction s as [| c s IH]; intros k; [cbn; lia |].
  cbn [scan]. destruct k as [| k]; [| specialize (IH k); cbn [String.length]; lia].
  destruct (lt_amp_re (String c s)) as [[g extra] |]; cbn [render].
  - specialize (IH extra). unfold lt_amp_replacement.
    destruct (String.eqb g "amp"); cbn [String.length];
      change (S (String.length (render (scan lt_amp_re extra s))) <= S (String.length s))%nat;
      lia.
  - specialize (IH 0%nat). cbn [String.length]. lia.
Qed.

(** X22. Unescaping never makes a text longer. *)
Theorem unescape_never_lengthens (s : string) :
  (String.length (unescape_lt_amp s) <= String.length s)%nat.
Proof. apply render_length. Qed.

End TemplateEdges.

Lemma bracketed_literal_sample :
  re_sub template_re (@replacement Sample.printer JNull (JInt 3)) (String "[" ("no. 1 <b>" +:+ "]"))
  = Ok "no. 1 <b>".
Proof.
  apply (@bracketed_literal Sample.printer); [discriminate | vm_compute; reflexivity].
Defined.

Lemma plain_text_is_copied_sample :
  re_sub template_re (@replacement Sample.printer JNull (JInt 3)) " / (?) -> % "
  = Ok " / (?) -> % ".
Proof.
  apply (@plain_text_is_copied Sample.printer). vm_compute. reflexivity.
Defined.

Lemma no_annotations_sample :
  text_under "Org" ";" (encode Sample.scored) = Ok EmptyString
  /\ @response_to_column Sample.printer "Org" "kind as %" ";" (encode Sample.scored)
     = Ok EmptyString
  /\ present_flag "Org" (encode Sample.scored) = Ok "0"
  /\ ProcessCsv.count "Org" (encode Sample.scored) = Ok "0".
Proof.
  apply (@no_annotations Sample.printer (encode Sample.scored)
           (encode_entities (entities Sample.scored))); [reflexivity |].
  left. vm_compute. reflexivity.
Defined.

Lemma text_of_is_a_substring_sample :
  covered_text (encode Sample.tagged)
               (encode_annotation {| indices := (2, 100); features := [] |})
  = Ok (unescape_lt_amp
          (String.substring (Z.to_nat 2) (Z.to_nat (100 - 2)) (full_text Sample.tagged))).
Proof.
  apply (text_of_is_a_substring Sample.tagged {| indices := (2, 100); features := [] |}).
  cbn. lia.
Defined.

(** ** The kinds of column *)

Section ColumnKinds.
Context `{Printer}.






End ColumnKinds.


(** ** Column definitions that compile *)

Section Compiling.
Context `{Printer}.

Lemma append_assoc (s t u : string) : (s +:+ t) +:+ u = s +:+ (t +:+ u).
Proof.
  induction s as [| c s IH]; [reflexivity |].
  change (String c ((s +:+ t) +:+ u) = String c (s +:+ (t +:+ u))). rewrite IH. reflexivity.
Qed.

Lemma rev_string_onto_append (s acc : string) :
  rev_string_onto s acc = rev_string s +:+ acc.
Proof.
  unfold rev_string. revert acc. induction s as [| c s IH]; intros acc; [reflexivity |].
  cbn [rev_string_onto]. rewrite (IH (String c acc)), (IH (String c EmptyString)).
  rewrite append_assoc. reflexivity.
Qed.

Lemma rev_string_cons (c : ascii) (s : string) :
  rev_string (String c s) = rev_string s +:+ String c EmptyString.
Proof. unfold rev_string at 1. cbn [rev_string_onto]. apply rev_string_onto_append. Qed.

Lemma rev_string_append (s t : string) :
  rev_string (s +:+ t) = rev_string t +:+ rev_string s.
Proof.
  induction s as [| c s IH].
  - change (rev_string t = rev_string t +:+ EmptyString). rewrite append_empty. reflexivity.
  - change (rev_string (String c (s +:+ t)) = rev_string t +:+ rev_string (String c s)).
    rewrite !rev_string_cons, IH, append_assoc. reflexivity.
Qed.

Lemma rev_string_involutive (s : string) : rev_string (rev_string s) = s.
Proof.
  induction s as [| c s IH]; [reflexivity |].
  rewrite rev_string_cons, rev_string_append, IH. reflexivity.
Qed.

Lemma drop_while_idempotent (p : ascii -> bool) (s : string) :
  drop_while p (drop_while p s) = drop_while p s.
Proof.
  induction s as [| c s IH]; [reflexivity |].
  cbn [drop_while]. destruct (p c) eqn:E; [exact IH |]. cbn [drop_while]. rewrite E. reflexivity.
Qed.

Lemma drop_while_keeps_last (p : ascii -> bool) (s : string) (d : ascii) :
  p d = false ->
  exists w, drop_while p (s +:+ String d EmptyString) = w +:+ String d EmptyString.
Proof.
  intros Hd. induction s as [| c s IH].
  - exists EmptyString. change (drop_while p (String d EmptyString) = String d EmptyString).
    cbn [drop_while]. rewrite Hd. reflexivity.
  - change (exists w, drop_while p (String c (s +:+ String d EmptyString))
                      = w +:+ String d EmptyString).
    cbn [drop_while]. destruct (p c); [exact IH |]. exists (String c s). reflexivity.
Qed.

Lemma rstrip_keeps_first (p : ascii -> bool) (d : ascii) (s : string) :
  p d = false -> exists w, rstrip_by p (String d s) = String d w.
Proof.
  intros Hd. unfold rstrip_by. rewrite rev_string_cons.
  destruct (drop_while_keeps_last p (rev_string s) d Hd) as [w ->].
  rewrite rev_string_append. exists (rev_string w). reflexivity.
Qed.

Lemma rstrip_idempotent (p : ascii -> bool) (s : string) :
  rstrip_by p (rstrip_by p s) = rstrip_by p s.
Proof.
  unfold rstrip_by. rewrite rev_string_involutive, drop_while_idempotent. reflexivity.
Qed.

(** A stripped text is empty or starts with a character that is no space. *)
Lemma strip_starts (s : string) :
  strip s = EmptyString
  \/ exists d w, strip s = String d w /\ is_space d = false.
Proof.
  unfold strip. assert (drop_while is_space s = EmptyString
                        \/ exists d t, drop_while is_space s = String d t /\ is_space d = false)
    as [-> | (d & t & -> & Hd)].
  { induction s as [| c s IH]; [left; reflexivity |].
    cbn [drop_while]. destruct (is_space c) eqn:E; [exact IH | right; eauto]. }
  - left. reflexivity.
  - right. destruct (rstrip_keeps_first is_space d t Hd) as [w Hw]. eauto.
Qed.

Lemma strip_idempotent (s : string) : strip (strip s) = strip s.
Proof.
  destruct (strip_starts s) as [-> | (d & w & Hs & Hd)]; [reflexivity |].
  unfold strip at 1. rewrite Hs. cbn [drop_while]. rewrite Hd, <- Hs.
  unfold strip. apply rstrip_idempotent.
Qed.

Lemma has_char_append (q : ascii -> bool) (s t : string) :
  has_char q (s +:+ t) = has_char q s || has_char q t.
Proof.
  induction s as [| c s IH]; [reflexivity |].
  change (q c || has_char q (s +:+ t) = q c || has_char q s || has_char q t).
  rewrite IH, orb_assoc. reflexivity.
Qed.

Lemma has_char_rev (q : ascii -> bool) (s : string) :
  has_char q (rev_string s) = has_char q s.
Proof.
  induction s as [| c s IH]; [reflexivity |].
  rewrite rev_string_cons, has_char_append, IH. cbn [has_char].
  rewrite orb_false_r, orb_comm. reflexivity.
Qed.

Lemma has_char_drop_while (q p : ascii -> bool) (s : string) :
  has_char q s = false -> has_char q (drop_while p s) = false.
Proof.
  induction s as [| c s IH]; intros Hs; [reflexivity |].
  cbn [drop_while]. destruct (p c); [| exact Hs].
  apply IH. cbn [has_char] in Hs. apply orb_false_elim in Hs as [_ Hs]. exact Hs.
Qed.

Lemma has_char_drop_string (q : ascii -> bool) (s : string) :
  forall n, has_char q s = false -> has_char q (drop_string n s) = false.
Proof.
  induction s as [| c s IH]; intros n Hs; [destruct n; reflexivity |].
  destruct n as [| n]; [exact Hs |]. cbn [drop_string].
  apply IH. cbn [has_char] in Hs. apply orb_false_elim in Hs as [_ Hs]. exact Hs.
Qed.

Lemma has_char_strip (q : ascii -> bool) (s : string) :
  has_char q s = false -> has_char q (strip s) = false.
Proof.
  intros Hs. unfold strip, rstrip_by. rewrite has_char_rev.
  apply has_char_drop_while. rewrite has_char_rev. apply has_char_drop_while. exact Hs.
Qed.

Lemma has_char_drop_final_newline (q : ascii -> bool) (s : string) :
  has_char q s = false -> has_char q (drop_final_newline s) = false.
Proof.
  intros Hs. unfold drop_final_newline.
  destruct (rev_string s) as [| c r] eqn:E; [exact Hs |].
  destruct (is_newline c); [| exact Hs].
  rewrite has_char_rev. rewrite <- has_char_rev, E in Hs. cbn [has_char] in Hs.
  apply orb_false_elim in Hs as [_ Hs]. exact Hs.
Qed.

Lemma ann_type_re_matches (s : string) :
  s <> EmptyString ->
  strip s = s ->
  has_char is_newline s = false ->
  exists head rest, ann_type_re s = Some (head, rest).
Proof.
  intros Hne Hstrip Hnl. unfold ann_type_re.
  destruct (strip_starts s) as [Hempty | (d & w & Hs & Hd)]; [congruence |].
  rewrite Hstrip in Hs. subst s.
  cbn [take_while]. rewrite Hd. cbn [negb String.eqb].
  destruct (String.eqb _ EmptyString); [eauto |].
  rewrite has_char_drop_final_newline; [eauto |].
  apply has_char_drop_while, has_char_drop_string. exact Hnl.
Qed.

Lemma output_function_succeeds (col : string) (type_to_sel : gmap string string) :
  has_char is_newline col = false ->
  strip col <> EmptyString ->
  exists sel fn, output_function col type_to_sel = Ok (sel, fn).
Proof.
  intros Hnl Hne. unfold output_function.
  destruct (ann_type_re_matches (strip col) Hne (strip_idempotent col)
                                (has_char_strip _ _ Hnl)) as (head & rest & ->).
  destruct (resolve head type_to_sel) as [sel ty]. eauto.
Qed.

(** X23. A column definition that has no line break and is not blank
    compiles, whatever the map of selectors; and leading and trailing
    blanks in a definition make no difference. *)
Theorem sensible_definition_compiles (col : string) (type_to_sel : gmap string string) :
  has_char is_newline col = false ->
  strip col <> EmptyString ->
  (exists sel fn, output_function col type_to_sel = Ok (sel, fn))
  /\ output_function (strip col) type_to_sel = output_function col type_to_sel.
Proof.
  intros Hnl Hne. split.
  - apply output_function_succeeds; assumption.
  - unfold output_function. rewrite strip_idempotent. reflexivity.
Qed.

Lemma stripped_keeps (xs : list string) (c : string) :
  In c (stripped xs) ->
  c <> EmptyString /\ exists x, In x xs /\ c = strip x.
Proof.
  unfold stripped. rewrite filter_In, in_map_iff. intros [(x & <- & Hx) Hnb].
  unfold not_blank in Hnb. apply negb_true_iff, String.eqb_neq in Hnb. eauto.
Qed.

(** X24. [__init__] succeeds whenever the metadata response can be read,
    no result definition has a line break and at least one of them is not
    blank. *)
Theorem init_succeeds (args : arguments) (metadata : response)
        (type_to_sel : gmap string string) :
  get_annotations_from_metadata metadata = Ok type_to_sel ->
  Forall (fun c => has_char is_newline c = false) (arg_results args) ->
  Exists (fun c => strip c <> EmptyString) (arg_results args) ->
  exists self ann_selectors, init args metadata = Ok (self, ann_selectors).
Proof.
  intros Hmeta Hnl Hsome. unfold init, compile. rewrite Hmeta. cbn [mbind result_bind].
  assert (exists pairs, traverse (fun c => output_function c type_to_sel)
                                 (stripped (arg_results args)) = Ok pairs
                        /\ length pairs = length (stripped (arg_results args)))
    as (pairs & -> & Hlen).
  { assert (forall c, In c (stripped (arg_results args)) ->
                      exists p, output_function c type_to_sel = Ok p) as Hall.
    { intros c Hc. destruct (stripped_keeps _ _ Hc) as (Hblank & x & Hx & ->).
      rewrite Forall_forall in Hnl.
      destruct (output_function_succeeds (strip x) type_to_sel) as (sel & fn & Hout);
        [apply has_char_strip, Hnl, list_elem_of_In, Hx | rewrite strip_idempotent; exact Hblank |].
      eauto. }
    induction (stripped (arg_results args)) as [| c cs IH]; [exists []; split; reflexivity |].
    destruct (Hall c) as [p Hp]; [left; reflexivity |].
    destruct IH as (ps & Hps & Hl); [intros c' Hc'; apply Hall; right; exact Hc' |].
    exists (p :: ps). cbn [traverse]. rewrite Hp. cbn [mbind result_bind]. rewrite Hps.
    split; [reflexivity | cbn; lia]. }
  assert (stripped (arg_results args) <> []) as Hne.
  { apply Exists_exists in Hsome as (x & Hx & Hblank). apply list_elem_of_In in Hx.
    intros Hempty. assert (In (strip x) (stripped (arg_results args))) as Hin.
    { unfold stripped. rewrite filter_In, in_map_iff. split; [eauto |].
      unfold not_blank. apply negb_true_iff, String.eqb_neq. exact Hblank. }
    rewrite Hempty in Hin. contradiction. }
  cbn [mbind result_bind].
  destruct pairs as [| p pairs];
    [destruct (stripped (arg_results args)); [contradiction | discriminate] |].
  cbn [mbind result_bind]. eauto.
Qed.

End Compiling.

Lemma sensible_definition_compiles_sample :
  (exists sel fn,
     @output_function Sample.printer "  Person  [$Person.kind]: $Person " ∅ = Ok (sel, fn))
  /\ @output_function Sample.printer (strip "  Person  [$Person.kind]: $Person ") ∅
     = @output_function Sample.printer "  Person  [$Person.kind]: $Person " ∅.
Proof.
  apply (@sensible_definition_compiles Sample.printer).
  - vm_compute. reflexivity.
  - vm_compute. discriminate.
Defined.

Lemma init_succeeds_sample :
  exists self ann_selectors,
    @init Sample.printer
      {| arg_has_headers := true; arg_text_column := "t";
         arg_copy_columns := [" id "; " "];
         arg_results := ["Person"; "  "; " Gene #count"] |}
      (Sample.reply 200 []
         (Decoded (JObj [("defaultAnnotations", JStr ":Person, :Location");
                         ("additionalAnnotations", JStr "Key:Person,Bio:Gene")])))
    = Ok (self, ann_selectors).
Proof.
  apply (@init_succeeds Sample.printer _ _
           (remember_all [":Person"; ":Location"; "Key:Person"; "Bio:Gene"])).
  - vm_compute. reflexivity.
  - repeat constructor.
  - apply Exists_cons_hd. vm_compute. discriminate.
Defined.
